(** * Jobs API: ownership-scoped job operations and the error normalizer

    A shallow embedding of the request handlers of [controllers/jobs], of the
    [Job] schema of [models/Job] and of [middleware/error-handler], with the
    properties the specification states about them, followed by further
    properties of the job routes and by the validators of the [User] schema
    of [models/User].

    The document store is a list of job documents in natural (insertion)
    order. An error object is the record of the properties the error handler
    reads. The clock and the identifier generator of the store are inputs of
    the operations that use them. A request payload ([Body.t]) holds, for
    each path of the schema, no value or a value of the path's type; the
    array a create can be sent and the update whose string paths hold
    arrays are [ReqBody] and [RawBody.t]. Lengths of strings are counted in
    characters. *)

From Stdlib Require Import List String Ascii ZArith NArith Bool Lia.
From Stdlib Require Import Permutation Sorted.
Import ListNotations.

Local Open Scope string_scope.
Local Open Scope Z_scope.

(** ** HTTP status codes ([http-status-codes]) *)

Module StatusCodes.
Definition OK : Z := 200.
Definition BAD_REQUEST : Z := 400.
Definition UNAUTHORIZED : Z := 401.
Definition NOT_FOUND : Z := 404.
Definition INTERNAL_SERVER_ERROR : Z := 500.
End StatusCodes.

(** ** Identifiers

    An ObjectId is a 12-byte value, kept here as the number it denotes. A
    string casts to an ObjectId when it is "a 24 size long hexadecimal value"
    (notes of the error handler); any other string is a cast failure. *)

Definition ObjectId := N.

Definition hexDigit (c : ascii) : option N :=
  let n := N_of_ascii c in
  if ((48 <=? n) && (n <=? 57))%N then Some (n - 48)%N
  else if ((97 <=? n) && (n <=? 102))%N then Some (n - 87)%N
  else if ((65 <=? n) && (n <=? 70))%N then Some (n - 55)%N
  else None.

Fixpoint parseHex (acc : N) (s : string) : option N :=
  match s with
  | EmptyString => Some acc
  | String c rest =>
      match hexDigit c with
      | Some d => parseHex (16 * acc + d)%N rest
      | None => None
      end
  end.

Definition castObjectId (s : string) : option ObjectId :=
  if Nat.eqb (String.length s) 24 then parseHex 0%N s else None.

(** ** Job documents and request payloads *)

(** A stored job: the four schema paths, the [_id] of the store and the two
    timestamps of [{timestamps: true}]. *)
Record JobDocument := mkJob {
  _id : ObjectId;
  role : string;
  company : string;
  status : string;
  createdBy : ObjectId;
  createdAt : Z;
  updatedAt : Z
}.

(** The collection, in natural order. *)
Definition Store := list JobDocument.

(** [req.body], typed as the schema types its paths: each path is absent or
    holds a value of the path's type. *)
Module Body.
Record t := mk {
  role : option string;
  company : option string;
  status : option string;
  createdBy : option ObjectId
}.

(** [body.createdBy = v] *)
Definition set_createdBy (v : option ObjectId) (b : t) : t :=
  {| role := role b; company := company b; status := status b;
     createdBy := v |}.
End Body.

(** [req.body] as [express.json()] hands it to a handler: a JSON object or
    a JSON array. [Body.t] is the object; the elements of an array are taken
    to be such objects. *)
Inductive ReqBody :=
| ObjectBody (b : Body.t)
| ArrayBody (docs : list Body.t).

(** A JSON value that is a string or an array (objects, numbers, booleans
    and null are left out). *)
Unset Elimination Schemes.
Inductive JsonValue :=
| JString (s : string)
| JArray (items : list JsonValue).
Set Elimination Schemes.


(** A patch payload whose string paths hold any such value. *)
Module RawBody.
Record t := mk {
  role : option JsonValue;
  company : option JsonValue;
  status : option JsonValue;
  createdBy : option ObjectId
}.

End RawBody.

(** ** Error objects *)

(** A field-level error of a Mongoose ValidationError
    ([err.errors[path]]). *)
Module ValidatorError.
Record t := mk {
  path : string;
  kind : string;
  message : string
}.
End ValidatorError.

(** The properties of a thrown error that the error handler reads.
    [statusCode] and [code] are absent ([None]) or numbers; [keyValue] and
    [errors] are objects, kept as association lists in key order; [name] and
    [message] are the strings every [Error] has. *)
Inductive KeyValue :=
| KeyString (s : string)
| KeyObjectId (o : ObjectId).

Record JsError := mkError {
  statusCode : option Z;
  message : string;
  code : option Z;
  keyValue : list (string * KeyValue);
  name : string;
  errors : list (string * ValidatorError.t);
  value : string
}.

Definition dquote : string := String (ascii_of_nat 34) EmptyString.

(** Modelled from the spec: the classes of [../errors] (NotFoundError,
    BadRequestError, UnauthenticatedError, all CustomAPIError), which are not
    among the sources. The spec's taxonomy gives each its status: NotFound
    404, BadRequest 400, Unauthenticated 401; the explicit-raise path sets
    that status as the marker attribute [statusCode] on an [Error] built
    from the message. *)
Inductive DomainErrorKind := NotFound | BadRequest | Unauthenticated.

Definition domainStatus (k : DomainErrorKind) : Z :=
  match k with
  | NotFound => StatusCodes.NOT_FOUND
  | BadRequest => StatusCodes.BAD_REQUEST
  | Unauthenticated => StatusCodes.UNAUTHORIZED
  end.

Definition CustomAPIError (k : DomainErrorKind) (msg : string) : JsError :=
  {| statusCode := Some (domainStatus k);
     message := msg;
     code := None;
     keyValue := [];
     name := "Error";
     errors := [];
     value := "" |}.

Definition NotFoundError : string -> JsError := CustomAPIError NotFound.
Definition BadRequestError : string -> JsError := CustomAPIError BadRequest.
Definition UnauthenticatedError : string -> JsError :=
  CustomAPIError Unauthenticated.

(** The three store-originated errors, shaped as in the notes of the error
    handler. *)

(** [Object.values(errors).map(e => path + ": " + e.message).join(", ")] *)
Definition describeErrors (errs : list (string * ValidatorError.t)) : string :=
  String.concat ", "
    (map (fun kv => fst kv ++ ": " ++ ValidatorError.message (snd kv)) errs).

Definition ValidationError (header : string)
    (errs : list (string * ValidatorError.t)) : JsError :=
  {| statusCode := None;
     message := header ++ ": " ++ describeErrors errs;
     code := None;
     keyValue := [];
     name := "ValidationError";
     errors := errs;
     value := "" |}.

Definition CastError (v : string) (path : string) : JsError :=
  {| statusCode := None;
     message := "Cast to ObjectId failed for value " ++ dquote ++ v ++ dquote
                ++ " (type string) at path " ++ dquote ++ path ++ dquote
                ++ " for model " ++ dquote ++ "Job" ++ dquote;
     code := None;
     keyValue := [];
     name := "CastError";
     errors := [];
     value := v |}.


Definition DuplicateKeyError (kv : list (string * KeyValue)) : JsError :=
  {| statusCode := None;
     message := "E11000 duplicate key error collection: JOBS-API.jobs";
     code := Some 11000;
     keyValue := kv;
     name := "MongoServerError";
     errors := [];
     value := "" |}.

(** ** Responses *)

Inductive Json :=
| JobsJson (jobs : list JobDocument) (numOfJobs : nat)
| JobJson (job : JobDocument)
| UpdatedJobJson (updatedJob : JobDocument)
| JobArrayJson (job : list JobDocument)
| MsgJson (msg : string)
| NoBody.

Record Response := mkResponse {
  res_status : Z;
  res_body : Json
}.

(** ** The error handler ([middleware/error-handler]) *)

Record CustomError := mkCustomError {
  ce_statusCode : Z;
  ce_msg : string
}.

(** [err.statusCode || fallback]: zero is falsy. *)
Definition statusCode_or (v : option Z) (fallback : Z) : Z :=
  match v with
  | Some n => if n =? 0 then fallback else n
  | None => fallback
  end.

(** [err.message || fallback]: the empty string is falsy. *)
Definition message_or (m : string) (fallback : string) : string :=
  if String.eqb m "" then fallback else m.

(** [err.code && err.code === 11000] *)
Definition isDuplicate (err : JsError) : bool :=
  match code err with
  | Some c => c =? 11000
  | None => false
  end.

(** [err.name === 'ValidationError'] *)
Definition isValidationError (err : JsError) : bool :=
  String.eqb (name err) "ValidationError".

(** [err.name === 'CastError'] *)
Definition isCastError (err : JsError) : bool :=
  String.eqb (name err) "CastError".

Definition genericMsg : string :=
  "Something went wrong, please try again later".

Definition duplicateMsg (err : JsError) : string :=
  "Duplicate value entered for the "
  ++ String.concat "," (map fst (keyValue err))
  ++ " field. Please choose another value".

Definition validationPrefix : string :=
  "Validation failed for user creation due to the following reasons: ".

Definition validationMsg (err : JsError) : string :=
  validationPrefix
  ++ String.concat ", "
       (map (fun subObject => ValidatorError.message (snd subObject))
            (errors err)).

Definition castMsg (err : JsError) : string :=
  "No job found with an id of " ++ value err.

(** The handler starts from the default answer and lets each rule that
    matches overwrite it, in the order of the source; the diagnostic
    [console.log] is not part of the answer. *)
Definition errorHandlerMiddleware (err : JsError) : Response :=
  let customError :=
    {| ce_statusCode :=
         statusCode_or (statusCode err) StatusCodes.INTERNAL_SERVER_ERROR;
       ce_msg := message_or (message err) genericMsg |} in
  let customError :=
    if isDuplicate err
    then {| ce_statusCode := StatusCodes.BAD_REQUEST;
            ce_msg := duplicateMsg err |}
    else customError in
  let customError :=
    if isValidationError err
    then {| ce_statusCode := StatusCodes.BAD_REQUEST;
            ce_msg := validationMsg err |}
    else customError in
  let customError :=
    if isCastError err
    then {| ce_statusCode := StatusCodes.NOT_FOUND;
            ce_msg := castMsg err |}
    else customError in
  {| res_status := ce_statusCode customError;
     res_body := MsgJson (ce_msg customError) |}.

(** ** The Job schema ([models/Job]) *)

Module JobSchema.

Definition statusEnum : list string := ["interview"; "pending"; "declined"].
Definition statusDefault : string := "pending".

Definition requiredError (path msg : string) : ValidatorError.t :=
  ValidatorError.mk path "required" msg.

(** Mongoose's message for a failed [maxLength]. *)
Definition maxlengthError (path v max : string) : ValidatorError.t :=
  ValidatorError.mk path "maxlength"
    ("Path `" ++ path ++ "` (`" ++ v
     ++ "`) is longer than the maximum allowed length (" ++ max ++ ").").

(** Mongoose's message for a failed [enum]. *)
Definition enumError (path v : string) : ValidatorError.t :=
  ValidatorError.mk path "enum"
    ("`" ++ v ++ "` is not a valid enum value for path `" ++ path ++ "`.").

(** The validators of a path run in order on the value it holds and the
    first failure is the path's error. A required string must be
    non-empty. *)
Definition validateRole (v : string) : option ValidatorError.t :=
  if String.eqb v "" then Some (requiredError "role" "Please provide a role")
  else if Nat.ltb 100 (String.length v)
       then Some (maxlengthError "role" v "100")
       else None.

Definition validateCompany (v : string) : option ValidatorError.t :=
  if String.eqb v ""
  then Some (requiredError "company" "Please enter a company name")
  else if Nat.ltb 50 (String.length v)
       then Some (maxlengthError "company" v "50")
       else None.

Definition isStatus (v : string) : bool :=
  existsb (String.eqb v) statusEnum.

Definition validateStatus (v : string) : option ValidatorError.t :=
  if isStatus v then None else Some (enumError "status" v).

Definition pathError (path : string) (e : option ValidatorError.t)
  : list (string * ValidatorError.t) :=
  match e with
  | Some ve => [(path, ve)]
  | None => []
  end.

(** The validators of the paths a payload sets, on the values it sets. The
    payload is a record, so its paths are taken in the order role, company,
    status; an owner, when set, is an ObjectId and passes. *)
Definition validateSet (doc : Body.t) : list (string * ValidatorError.t) :=
  pathError "role"
    (match Body.role doc with
     | Some v => validateRole v
     | None => None
     end)
  ++ pathError "company"
    (match Body.company doc with
     | Some v => validateCompany v
     | None => None
     end)
  ++ pathError "status"
    (match Body.status doc with
     | Some v => validateStatus v
     | None => None
     end).

(** The required paths a new document leaves unset. Mongoose visits them
    first and in reverse schema order (the sample of the notes of the error
    handler shows it: password before email). *)
Definition missingRequired (doc : Body.t)
  : list (string * ValidatorError.t) :=
  pathError "createdBy"
    (match Body.createdBy doc with
     | Some _ => None
     | None => Some (requiredError "createdBy" "Please provide a user")
     end)
  ++ pathError "company"
    (match Body.company doc with
     | Some _ => None
     | None => Some (requiredError "company" "Please enter a company name")
     end)
  ++ pathError "role"
    (match Body.role doc with
     | Some _ => None
     | None => Some (requiredError "role" "Please provide a role")
     end).

(** Validation of a new document: the unset required paths fail, the set
    paths are validated, an unset [status] takes its default. *)
Definition validateDocument (doc : Body.t)
  : list (string * ValidatorError.t) :=
  missingRequired doc ++ validateSet doc.

(** Update validators ([runValidators: true]): only the paths the update
    sets are checked, on the values it sets. *)
Definition validateUpdate (update : Body.t)
  : list (string * ValidatorError.t) :=
  validateSet update.

End JobSchema.

(** ** The Job model: the queries the controllers issue *)

Inductive result (A : Type) :=
| Resolved (a : A)
| Rejected (err : JsError).
Arguments Resolved {A} a.
Arguments Rejected {A} err.

(** What the environment supplies to a write: the clock and the identifier
    the driver generates for a new document. *)
Record Env := mkEnv {
  now : Z;
  newId : ObjectId
}.

Module Job.

(** The filter [{ createdBy: userId }]. *)
Definition ownedBy (userId : ObjectId) (j : JobDocument) : bool :=
  N.eqb (createdBy j) userId.

(** The filter [{ _id: oid, createdBy: userId }]. *)
Definition matches (oid userId : ObjectId) (j : JobDocument) : bool :=
  N.eqb (_id j) oid && ownedBy userId j.

Definition find (userId : ObjectId) (s : Store) : list JobDocument :=
  filter (ownedBy userId) s.

(** [.sort('createdAt')]: ascending, ties in natural order. *)
Fixpoint insertByCreatedAt (j : JobDocument) (l : list JobDocument)
  : list JobDocument :=
  match l with
  | [] => [j]
  | k :: rest =>
      if createdAt j <=? createdAt k then j :: l
      else k :: insertByCreatedAt j rest
  end.

Definition sort (l : list JobDocument) : list JobDocument :=
  fold_right insertByCreatedAt [] l.

Definition findOne (jobId : string) (userId : ObjectId) (s : Store)
  : result (option JobDocument) :=
  match castObjectId jobId with
  | None => Rejected (CastError jobId "_id")
  | Some oid => Resolved (List.find (matches oid userId) s)
  end.

Definition hasId (oid : ObjectId) (s : Store) : bool :=
  existsb (fun j => N.eqb (_id j) oid) s.

(** [Job.create(doc)]: validate, then insert; the store rejects a second
    document with the same [_id]. A document that passed validation holds
    every required path, so the fallbacks below are never read. *)
Definition create (doc : Body.t) (env : Env) (s : Store)
  : Store * result JobDocument :=
  match JobSchema.validateDocument doc with
  | [] =>
      let job :=
        {| _id := newId env;
           role := match Body.role doc with Some v => v | None => "" end;
           company :=
             match Body.company doc with Some v => v | None => "" end;
           status :=
             match Body.status doc with
             | Some v => v
             | None => JobSchema.statusDefault
             end;
           createdBy :=
             match Body.createdBy doc with Some o => o | None => 0%N end;
           createdAt := now env;
           updatedAt := now env |} in
      if hasId (newId env) s
      then (s, Rejected
                 (DuplicateKeyError [("_id", KeyObjectId (newId env))]))
      else ((s ++ [job])%list, Resolved job)
  | errs => (s, Rejected (ValidationError "Job validation failed" errs))
  end.

(** [Job.create(docs)] on an array: every element is made a document and
    saved on its own, with its own identifier and timestamps ([envs i] for
    the element of index [i]); the elements that pass are stored even when
    another one fails, and the call rejects with the first failure or
    resolves to the array of the new documents. Saves are taken in the order
    of the array. *)
Fixpoint createEach (docs : list Body.t) (envs : nat -> Env) (i : nat)
    (s : Store) : Store * list (result JobDocument) :=
  match docs with
  | [] => (s, [])
  | doc :: rest =>
      let (s1, r) := create doc (envs i) s in
      let (s2, rs) := createEach rest envs (S i) s1 in
      (s2, r :: rs)
  end.

Fixpoint firstRejection (rs : list (result JobDocument)) : option JsError :=
  match rs with
  | [] => None
  | Rejected err :: _ => Some err
  | Resolved _ :: rest => firstRejection rest
  end.

Fixpoint resolved (rs : list (result JobDocument)) : list JobDocument :=
  match rs with
  | [] => []
  | Resolved job :: rest => job :: resolved rest
  | Rejected _ :: rest => resolved rest
  end.

Definition createMany (docs : list Body.t) (envs : nat -> Env) (s : Store)
  : Store * result (list JobDocument) :=
  let (s', rs) := createEach docs envs 0 s in
  match firstRejection rs with
  | Some err => (s', Rejected err)
  | None => (s', Resolved (resolved rs))
  end.

(** The [$set] of the paths the update holds, and the [updatedAt]
    timestamp. *)
Definition applyUpdate (update : Body.t) (env : Env) (j : JobDocument)
  : JobDocument :=
  {| _id := _id j;
     role := match Body.role update with Some v => v | None => role j end;
     company :=
       match Body.company update with Some v => v | None => company j end;
     status :=
       match Body.status update with Some v => v | None => status j end;
     createdBy :=
       match Body.createdBy update with
       | Some o => o
       | None => createdBy j
       end;
     createdAt := createdAt j;
     updatedAt := now env |}.

Fixpoint updateFirst (p : JobDocument -> bool)
    (f : JobDocument -> JobDocument) (s : Store)
  : Store * option JobDocument :=
  match s with
  | [] => ([], None)
  | j :: rest =>
      if p j then (f j :: rest, Some (f j))
      else let (rest', r) := updateFirst p f rest in (j :: rest', r)
  end.

Fixpoint removeFirst (p : JobDocument -> bool) (s : Store)
  : Store * option JobDocument :=
  match s with
  | [] => ([], None)
  | j :: rest =>
      if p j then (rest, Some j)
      else let (rest', r) := removeFirst p rest in (j :: rest', r)
  end.

(** [findOneAndUpdate(filter, update, {runValidators: true, new: true})]:
    the filter is cast, the update validated, and only then is the store
    asked to update the first match; the updated document is returned. *)
Definition findOneAndUpdate (jobId : string) (userId : ObjectId)
    (update : Body.t) (env : Env) (s : Store)
  : Store * result (option JobDocument) :=
  match castObjectId jobId with
  | None => (s, Rejected (CastError jobId "_id"))
  | Some oid =>
      match JobSchema.validateUpdate update with
      | [] =>
          let (s', r) :=
            updateFirst (matches oid userId) (applyUpdate update env) s in
          (s', Resolved r)
      | errs => (s, Rejected (ValidationError "Validation failed" errs))
      end
  end.





Definition findOneAndDelete (jobId : string) (userId : ObjectId)
    (s : Store) : Store * result (option JobDocument) :=
  match castObjectId jobId with
  | None => (s, Rejected (CastError jobId "_id"))
  | Some oid =>
      let (s', r) := removeFirst (matches oid userId) s in
      (s', Resolved r)
  end.

End Job.

(** ** The controllers ([controllers/jobs]) *)

(** A handler sends a response or throws; either way it leaves a store. *)
Inductive Outcome :=
| Sent (res : Response)
| Thrown (err : JsError).

Definition notFoundMsg (jobId : string) : string :=
  "No job with id " ++ jobId ++ " was found".

Definition getAllJobs (s : Store) (userId : ObjectId) : Store * Outcome :=
  let jobs := Job.sort (Job.find userId s) in
  (s, Sent {| res_status := StatusCodes.OK;
              res_body := JobsJson jobs (List.length jobs) |}).

Definition getJob (s : Store) (userId : ObjectId) (jobId : string)
  : Store * Outcome :=
  match Job.findOne jobId userId s with
  | Rejected err => (s, Thrown err)
  | Resolved None => (s, Thrown (NotFoundError (notFoundMsg jobId)))
  | Resolved (Some job) =>
      (s, Sent {| res_status := StatusCodes.OK; res_body := JobJson job |})
  end.

Definition createJob (s : Store) (userId : ObjectId) (body : Body.t)
    (env : Env) : Store * Outcome :=
  let body := Body.set_createdBy (Some userId) body in
  match Job.create body env s with
  | (s', Rejected err) => (s', Thrown err)
  | (s', Resolved job) =>
      (s', Sent {| res_status := StatusCodes.OK; res_body := JobJson job |})
  end.

Definition updateJob (s : Store) (userId : ObjectId) (jobId : string)
    (newData : Body.t) (env : Env) : Store * Outcome :=
  match Job.findOneAndUpdate jobId userId newData env s with
  | (s', Rejected err) => (s', Thrown err)
  | (s', Resolved None) => (s', Thrown (NotFoundError (notFoundMsg jobId)))
  | (s', Resolved (Some updatedJob)) =>
      (s', Sent {| res_status := StatusCodes.OK;
                   res_body := UpdatedJobJson updatedJob |})
  end.


(** [createJob] on an array body. [req.body.createdBy = req.user.userId]
    sets a property named [createdBy] on the array itself; [Job.create]
    reads the elements of the array, not that property, so the caller's
    identity goes nowhere and each element keeps the owner its sender
    wrote. *)
Definition createJobArray (s : Store) (userId : ObjectId)
    (docs : list Body.t) (envs : nat -> Env) : Store * Outcome :=
  match Job.createMany docs envs s with
  | (s', Rejected err) => (s', Thrown err)
  | (s', Resolved job) =>
      (s', Sent {| res_status := StatusCodes.OK;
                   res_body := JobArrayJson job |})
  end.

(** [createJob] on whatever body the request carries. *)
Definition createJobAny (s : Store) (userId : ObjectId) (body : ReqBody)
    (envs : nat -> Env) : Store * Outcome :=
  match body with
  | ObjectBody b => createJob s userId b (envs O)
  | ArrayBody docs => createJobArray s userId docs envs
  end.

Definition deleteJob (s : Store) (userId : ObjectId) (jobId : string)
  : Store * Outcome :=
  match Job.findOneAndDelete jobId userId s with
  | (s', Rejected err) => (s', Thrown err)
  | (s', Resolved None) => (s', Thrown (NotFoundError (notFoundMsg jobId)))
  | (s', Resolved (Some _)) =>
      (s', Sent {| res_status := StatusCodes.OK; res_body := NoBody |})
  end.

(** ** The application: a thrown error goes to the error handler
    ([express-async-errors], [app.use(errorHandlerMiddleware)]) *)

Definition respond (o : Store * Outcome) : Store * Response :=
  match o with
  | (s, Sent res) => (s, res)
  | (s, Thrown err) => (s, errorHandlerMiddleware err)
  end.

(** ** Vocabulary of the properties *)

(** The response of each rule of the error handler. The default rule answers
    with the error's own status and message, each with its fallback. *)
Definition defaultResponse (err : JsError) : Response :=
  {| res_status :=
       statusCode_or (statusCode err) StatusCodes.INTERNAL_SERVER_ERROR;
     res_body := MsgJson (message_or (message err) genericMsg) |}.

Definition duplicateResponse (err : JsError) : Response :=
  {| res_status := StatusCodes.BAD_REQUEST;
     res_body := MsgJson (duplicateMsg err) |}.

Definition validationResponse (err : JsError) : Response :=
  {| res_status := StatusCodes.BAD_REQUEST;
     res_body := MsgJson (validationMsg err) |}.

Definition castResponse (err : JsError) : Response :=
  {| res_status := StatusCodes.NOT_FOUND;
     res_body := MsgJson (castMsg err) |}.

(** A status that [||] keeps: present and not zero. *)
Definition hasStatus (err : JsError) : bool :=
  match statusCode err with
  | Some n => negb (n =? 0)
  | None => false
  end.

(** An error that matches none of the shapes: no duplicate-key indicator,
    neither of the two names, no status of its own. *)
Definition unclassified (err : JsError) : bool :=
  negb (isDuplicate err) && negb (isValidationError err)
  && negb (isCastError err) && negb (hasStatus err).

(** What a caller is told when the filter matches nothing. *)
Definition notFoundResponse (jobId : string) : Response :=
  {| res_status := StatusCodes.NOT_FOUND;
     res_body := MsgJson (notFoundMsg jobId) |}.

(** The store keeps [_id] unique. *)
Definition UniqueIds (s : Store) : Prop := NoDup (map _id s).

(** The store after the document with the given id has been rewritten. *)
Definition replaceById (oid : ObjectId) (f : JobDocument -> JobDocument)
    (s : Store) : Store :=
  map (fun k => if N.eqb (_id k) oid then f k else k) s.

(** Creation-time order. *)
Definition createdBefore (j k : JobDocument) : Prop :=
  createdAt j <= createdAt k.

(** A response that carries a job document. *)
Definition carriesJob (res : Response) : bool :=
  match res_body res with
  | JobsJson (_ :: _) _ | JobJson _ | UpdatedJobJson _
  | JobArrayJson (_ :: _) => true
  | _ => false
  end.

(** Sample data: two users, a job of the first, and requests. *)
Module Sample.
Definition userA : ObjectId := 10%N.
Definition userB : ObjectId := 11%N.
Definition jobId : string := "67d4cc1feb66701a1bb454be".
Definition oid : ObjectId := 32134212236930783460283667646%N.
Definition job : JobDocument :=
  {| _id := oid; role := "Engineer"; company := "Acme";
     status := "pending"; createdBy := userA;
     createdAt := 1000; updatedAt := 1000 |}.
Definition store : Store := [job].
Definition env : Env := {| now := 2000; newId := 77%N |}.
Definition emptyBody : Body.t := Body.mk None None None None.
Definition badStatus : Body.t := Body.mk None None (Some "bogus") None.
Definition newRole : Body.t := Body.mk (Some "Lead") None None None.
Definition engineerAtAcme : Body.t :=
  Body.mk (Some "Engineer") (Some "Acme") None (Some userB).
Definition internalError : JsError :=
  {| statusCode := None;
     message := "connect ECONNREFUSED 127.0.0.1:27017";
     code := None; keyValue := []; name := "MongooseServerSelectionError";
     errors := []; value := "" |}.
Definition duplicateEmail : JsError :=
  DuplicateKeyError [("email", KeyString "reusedannaemail@gmail.com")].
Definition missingCredentials : JsError :=
  ValidationError "User validation failed"
    [("password",
      ValidatorError.mk "password" "required" "Please provide a password");
     ("email",
      ValidatorError.mk "email" "required" "Please provide an email")].
Definition badId : JsError := CastError "67d4cc1feb66701a1bb454bee" "_id".
End Sample.

(** ** Regular expressions: what [RegExp.prototype.test] decides

    The pattern of the email path uses character classes, sequence,
    alternation and repetition only, so whether [^pattern$] matches a string
    is membership in a regular language. [test] decides it by derivatives;
    [Matches] is the language. Strings are sequences of code units below
    256. *)

Module RegExp.

Inductive t :=
| Never
| Empty
| Class (p : ascii -> bool)
| Seq (r1 r2 : t)
| Alt (r1 r2 : t)
| Star (r : t).

(** [c], [r+], [r?] and [r{1,3}]. *)
Definition Chr (c : ascii) : t := Class (Ascii.eqb c).
Definition Plus (r : t) : t := Seq r (Star r).
Definition Opt (r : t) : t := Alt r Empty.
Definition Rep13 (r : t) : t := Seq r (Opt (Seq r (Opt r))).

Fixpoint nullable (r : t) : bool :=
  match r with
  | Never => false
  | Empty => true
  | Class _ => false
  | Seq r1 r2 => nullable r1 && nullable r2
  | Alt r1 r2 => nullable r1 || nullable r2
  | Star _ => true
  end.

Fixpoint deriv (c : ascii) (r : t) : t :=
  match r with
  | Never => Never
  | Empty => Never
  | Class p => if p c then Empty else Never
  | Seq r1 r2 =>
      if nullable r1 then Alt (Seq (deriv c r1) r2) (deriv c r2)
      else Seq (deriv c r1) r2
  | Alt r1 r2 => Alt (deriv c r1) (deriv c r2)
  | Star r1 => Seq (deriv c r1) (Star r1)
  end.

Fixpoint test (r : t) (s : string) : bool :=
  match s with
  | EmptyString => nullable r
  | String c rest => test (deriv c r) rest
  end.

Inductive Matches : t -> string -> Prop :=
| MEmpty : Matches Empty ""
| MClass p c : p c = true -> Matches (Class p) (String c "")
| MSeq r1 r2 s1 s2 :
    Matches r1 s1 -> Matches r2 s2 -> Matches (Seq r1 r2) (s1 ++ s2)
| MAltL r1 r2 s : Matches r1 s -> Matches (Alt r1 r2) s
| MAltR r1 r2 s : Matches r2 s -> Matches (Alt r1 r2) s
| MStarNil r : Matches (Star r) ""
| MStarCons r s1 s2 :
    Matches r s1 -> Matches (Star r) s2 -> Matches (Star r) (s1 ++ s2).

End RegExp.

(** ** The User schema ([models/User]) *)

(** The payload of a registration, typed as the schema types its paths. *)
Module UserBody.
Record t := mk {
  name : option string;
  email : option string;
  password : option string
}.
End UserBody.


Module UserSchema.

Import RegExp.

Definition charCode (c : ascii) : N := N_of_ascii c.
Definition quoteChar : ascii := ascii_of_nat 34.

Definition inSet (chars : string) (c : ascii) : bool :=
  existsb (Ascii.eqb c) (list_ascii_of_string chars).

(** [\s], as far as code units below 256 go. *)
Definition isSpace (c : ascii) : bool :=
  existsb (N.eqb (charCode c)) [9; 10; 11; 12; 13; 32; 160]%N.

(** The class of the local part: any character but the listed ones, the
    double quote and white space. *)
Definition atomChar (c : ascii) : bool :=
  negb (inSet "<>()[]\.,;:@" c || Ascii.eqb c quoteChar || isSpace c).

(** [.]: any character but a line terminator. *)
Definition anyChar (c : ascii) : bool :=
  negb (N.eqb (charCode c) 10 || N.eqb (charCode c) 13).

(** [[0-9]], [[a-zA-Z]] and [[a-zA-Z\-0-9]]. *)
Definition isDigit (c : ascii) : bool :=
  N.leb 48 (charCode c) && N.leb (charCode c) 57.

Definition isLetter (c : ascii) : bool :=
  (N.leb 97 (charCode c) && N.leb (charCode c) 122)
  || (N.leb 65 (charCode c) && N.leb (charCode c) 90).

Definition labelChar (c : ascii) : bool :=
  isLetter c || Ascii.eqb c "-" || isDigit c.

(** Atoms separated by dots, or anything between double quotes. *)
Definition localPart : t :=
  Alt (Seq (Plus (Class atomChar))
           (Star (Seq (Chr ".") (Plus (Class atomChar)))))
      (Seq (Chr quoteChar) (Seq (Plus (Class anyChar)) (Chr quoteChar))).

(** Four groups of one to three digits between brackets. *)
Definition addressLiteral : t :=
  Seq (Chr "[")
   (Seq (Rep13 (Class isDigit))
    (Seq (Chr ".")
     (Seq (Rep13 (Class isDigit))
      (Seq (Chr ".")
       (Seq (Rep13 (Class isDigit))
        (Seq (Chr ".")
         (Seq (Rep13 (Class isDigit)) (Chr "]")))))))).

(** Labels, each followed by a dot, then two letters or more. *)
Definition hostName : t :=
  Seq (Plus (Seq (Plus (Class labelChar)) (Chr ".")))
      (Seq (Class isLetter) (Seq (Class isLetter) (Star (Class isLetter)))).

Definition domainPart : t := Alt addressLiteral hostName.

(** The pattern of [match], between its anchors. *)
Definition emailRegExp : t := Seq localPart (Seq (Chr "@") domainPart).

(** Mongoose's message for a failed [minLength]. *)
Definition minlengthError (path v min : string) : ValidatorError.t :=
  ValidatorError.mk path "minlength"
    ("Path `" ++ path ++ "` (`" ++ v
     ++ "`) is shorter than the minimum allowed length (" ++ min ++ ").").

(** The validators of each path, in the order Mongoose runs them:
    [required] first, then the others as the schema lists them. The match
    validator is only ever asked about a non-empty string. *)
Definition validateName (v : string) : option ValidatorError.t :=
  if String.eqb v ""
  then Some (JobSchema.requiredError "name" "Please provide a name")
  else if Nat.ltb (String.length v) 3
       then Some (minlengthError "name" v "3")
       else if Nat.ltb 50 (String.length v)
            then Some (JobSchema.maxlengthError "name" v "50")
            else None.

Definition validateEmail (v : string) : option ValidatorError.t :=
  if String.eqb v ""
  then Some (JobSchema.requiredError "email" "Please provide an email")
  else if RegExp.test emailRegExp v then None
       else Some (ValidatorError.mk "email" "regexp"
                    "Please provide a valid email").

Definition validatePassword (v : string) : option ValidatorError.t :=
  if String.eqb v ""
  then Some (JobSchema.requiredError "password" "Please provide a password")
  else if Nat.ltb (String.length v) 6
       then Some (minlengthError "password" v "6")
       else None.

(** The set paths, in the order name, email, password. *)
Definition validateSet (doc : UserBody.t)
  : list (string * ValidatorError.t) :=
  JobSchema.pathError "name"
    (match UserBody.name doc with
     | Some v => validateName v
     | None => None
     end)
  ++ JobSchema.pathError "email"
    (match UserBody.email doc with
     | Some v => validateEmail v
     | None => None
     end)
  ++ JobSchema.pathError "password"
    (match UserBody.password doc with
     | Some v => validatePassword v
     | None => None
     end).

(** The unset required paths, in reverse schema order. *)
Definition missingRequired (doc : UserBody.t)
  : list (string * ValidatorError.t) :=
  JobSchema.pathError "password"
    (match UserBody.password doc with
     | Some _ => None
     | None =>
         Some (JobSchema.requiredError "password" "Please provide a password")
     end)
  ++ JobSchema.pathError "email"
    (match UserBody.email doc with
     | Some _ => None
     | None =>
         Some (JobSchema.requiredError "email" "Please provide an email")
     end)
  ++ JobSchema.pathError "name"
    (match UserBody.name doc with
     | Some _ => None
     | None => Some (JobSchema.requiredError "name" "Please provide a name")
     end).

Definition validateDocument (doc : UserBody.t)
  : list (string * ValidatorError.t) :=
  missingRequired doc ++ validateSet doc.

End UserSchema.

(** ** Vocabulary for strings and patterns *)

Fixpoint allChars (p : ascii -> bool) (s : string) : bool :=
  match s with
  | EmptyString => true
  | String c rest => p c && allChars p rest
  end.

Fixpoint hasChar (c : ascii) (s : string) : bool :=
  match s with
  | EmptyString => false
  | String x rest => Ascii.eqb x c || hasChar c rest
  end.

Definition startsWith (c : ascii) (s : string) : bool :=
  match s with
  | EmptyString => false
  | String x _ => Ascii.eqb x c
  end.

(** Every code unit of the model. *)
Definition allAscii : list ascii := map ascii_of_nat (seq 0 256).

(** Every class of the pattern lies within [P]. *)
Fixpoint classesWithin (P : ascii -> bool) (r : RegExp.t) : bool :=
  match r with
  | RegExp.Never | RegExp.Empty => true
  | RegExp.Class p => forallb (fun c => implb (p c) (P c)) allAscii
  | RegExp.Seq r1 r2 | RegExp.Alt r1 r2 =>
      classesWithin P r1 && classesWithin P r2
  | RegExp.Star r1 => classesWithin P r1
  end.

(** The pattern cannot match without matching [c] somewhere. *)
Fixpoint mustContain (c : ascii) (r : RegExp.t) : bool :=
  match r with
  | RegExp.Never => true
  | RegExp.Empty => false
  | RegExp.Class p =>
      forallb (fun x => implb (p x) (Ascii.eqb x c)) allAscii
  | RegExp.Seq r1 r2 => mustContain c r1 || mustContain c r2
  | RegExp.Alt r1 r2 => mustContain c r1 && mustContain c r2
  | RegExp.Star _ => false
  end.

(** The pattern cannot match the empty string. *)
Fixpoint nonEmpty (r : RegExp.t) : bool :=
  match r with
  | RegExp.Never => true
  | RegExp.Empty => false
  | RegExp.Class _ => true
  | RegExp.Seq r1 r2 => nonEmpty r1 || nonEmpty r2
  | RegExp.Alt r1 r2 => nonEmpty r1 && nonEmpty r2
  | RegExp.Star _ => false
  end.

(** A letter, a digit, a hyphen, a dot or a bracket. *)
Definition domainChar (c : ascii) : bool :=
  UserSchema.labelChar c || UserSchema.inSet ".[]" c.

Definition atomOrDot (c : ascii) : bool :=
  UserSchema.atomChar c || Ascii.eqb c ".".

Definition alnum (c : ascii) : bool :=
  UserSchema.isLetter c || UserSchema.isDigit c.

(** ** Requests and runs of the job routes *)

(** The store after the document with the given id has been removed. *)
Definition removeById (oid : ObjectId) (s : Store) : Store :=
  filter (fun k => negb (N.eqb (_id k) oid)) s.

(** A document that satisfies the constraints of the schema. *)
Definition validJob (j : JobDocument) : bool :=
  negb (String.eqb (role j) "")
  && Nat.leb (String.length (role j)) 100
  && negb (String.eqb (company j) "")
  && Nat.leb (String.length (company j)) 50
  && JobSchema.isStatus (status j).

(** An authenticated request to one of the five job routes, with what the
    environment supplies to it. The body of a create is one object and the
    payload of an update a plain object, both with values of the schema's
    types at the paths they name. *)
Inductive Request :=
| ListJobs (userId : ObjectId)
| GetJob (userId : ObjectId) (jobId : string)
| CreateJob (userId : ObjectId) (body : Body.t) (env : Env)
| UpdateJob (userId : ObjectId) (jobId : string) (newData : Body.t)
    (env : Env)
| DeleteJob (userId : ObjectId) (jobId : string).

Definition handle (s : Store) (r : Request) : Store * Response :=
  respond
    match r with
    | ListJobs userId => getAllJobs s userId
    | GetJob userId jobId => getJob s userId jobId
    | CreateJob userId body env => createJob s userId body env
    | UpdateJob userId jobId newData env =>
        updateJob s userId jobId newData env
    | DeleteJob userId jobId => deleteJob s userId jobId
    end.

(** The store after a sequence of requests. *)
Definition serve (s : Store) (rs : list Request) : Store :=
  fold_left (fun s r => fst (handle s r)) rs s.

(** The jobs a caller is shown by the list route. *)
Definition listed (s : Store) (userId : ObjectId) : Response :=
  snd (respond (getAllJobs s userId)).

(** The set paths of a payload pass their validators. *)
Definition setPathsPass (b : Body.t) : Prop :=
  (forall v, Body.role b = Some v ->
             v <> "" /\ (String.length v <= 100)%nat)
  /\ (forall v, Body.company b = Some v ->
                v <> "" /\ (String.length v <= 50)%nat)
  /\ (forall v, Body.status b = Some v ->
                v = "interview" \/ v = "pending" \/ v = "declined").

(** A request that writes. *)
Definition isWrite (r : Request) : bool :=
  match r with
  | CreateJob _ _ _ | UpdateJob _ _ _ _ | DeleteJob _ _ => true
  | ListJobs _ | GetJob _ _ => false
  end.

(** * Properties *)

(** ** The error handler *)

Section ErrorHandler.

Variable err : JsError.

Lemma isValidationError_true :
  isValidationError err = true <-> name err = "ValidationError".
Proof. unfold isValidationError. apply String.eqb_eq. Qed.

Lemma isCastError_true :
  isCastError err = true <-> name err = "CastError".
Proof. unfold isCastError. apply String.eqb_eq. Qed.

Lemma isValidationError_false :
  isValidationError err = false <-> name err <> "ValidationError".
Proof. unfold isValidationError. apply String.eqb_neq. Qed.

Lemma isCastError_false :
  isCastError err = false <-> name err <> "CastError".
Proof. unfold isCastError. apply String.eqb_neq. Qed.

(** One name cannot be both. *)
Lemma cast_excludes_validation :
  isCastError err = true -> isValidationError err = false.
Proof.
  rewrite isCastError_true, isValidationError_false.
  intros -> H. discriminate H.
Qed.

Lemma errorHandler_cast :
  isCastError err = true -> errorHandlerMiddleware err = castResponse err.
Proof.
  intros H. unfold errorHandlerMiddleware. rewrite H. reflexivity.
Qed.

Lemma errorHandler_validation :
  isValidationError err = true ->
  errorHandlerMiddleware err = validationResponse err.
Proof.
  intros H. unfold errorHandlerMiddleware. rewrite H.
  destruct (isCastError err) eqn:C.
  - apply cast_excludes_validation in C. congruence.
  - reflexivity.
Qed.

Lemma errorHandler_duplicate :
  isDuplicate err = true ->
  isValidationError err = false ->
  isCastError err = false ->
  errorHandlerMiddleware err = duplicateResponse err.
Proof.
  intros D V C. unfold errorHandlerMiddleware. rewrite D, V, C. reflexivity.
Qed.

Lemma errorHandler_default :
  isDuplicate err = false ->
  isValidationError err = false ->
  isCastError err = false ->
  errorHandlerMiddleware err = defaultResponse err.
Proof.
  intros D V C. unfold errorHandlerMiddleware. rewrite D, V, C. reflexivity.
Qed.

Lemma statusCode_or_no_status (fallback : Z) :
  hasStatus err = false -> statusCode_or (statusCode err) fallback = fallback.
Proof.
  unfold hasStatus, statusCode_or.
  destruct (statusCode err) as [n|]; [|reflexivity].
  destruct (n =? 0); [reflexivity|discriminate].
Qed.

End ErrorHandler.

Lemma message_or_nonempty (m fallback : string) :
  m <> "" -> message_or m fallback = m.
Proof.
  intros H. unfold message_or.
  destruct (String.eqb_spec m ""); [contradiction|reflexivity].
Qed.

(** C4, as stated, fails. An error with no duplicate-key indicator, neither
    of the two names and no status of its own, but with a message, is
    answered with status 500 and with that message, not with the fixed
    generic one: the default rule reads [err.message] before its fallback. *)
Lemma unclassified_error_message_reaches_client :
  unclassified Sample.internalError = true
  /\ errorHandlerMiddleware Sample.internalError =
       {| res_status := 500;
          res_body := MsgJson "connect ECONNREFUSED 127.0.0.1:27017" |}
  /\ errorHandlerMiddleware Sample.internalError <>
       {| res_status := 500; res_body := MsgJson genericMsg |}.
Proof.
  split; [reflexivity|].
  assert (E : errorHandlerMiddleware Sample.internalError =
              {| res_status := 500;
                 res_body := MsgJson "connect ECONNREFUSED 127.0.0.1:27017" |})
    by reflexivity.
  split; [exact E|].
  rewrite E. intros H. inversion H.
Qed.

(** C4, amended. For every error that matches none of the classifier shapes
    the error handler produces status 500; the message is the error's own
    message when it has a non-empty one, and the fixed generic message
    otherwise. *)
Theorem unclassified_error_is_500 (err : JsError) :
  unclassified err = true ->
  errorHandlerMiddleware err =
    {| res_status := 500;
       res_body :=
         MsgJson (if String.eqb (message err) "" then genericMsg
                  else message err) |}.
Proof.
  unfold unclassified. intros H.
  repeat (apply andb_prop in H; destruct H as [H ?]).
  repeat match goal with
         | X : negb _ = true |- _ => apply negb_true_iff in X
         end.
  rewrite errorHandler_default by assumption.
  unfold defaultResponse.
  rewrite statusCode_or_no_status by assumption.
  reflexivity.
Qed.

Lemma unclassified_error_is_500_witness :
  unclassified Sample.internalError = true
  /\ errorHandlerMiddleware Sample.internalError =
       {| res_status := 500;
          res_body := MsgJson "connect ECONNREFUSED 127.0.0.1:27017" |}.
Proof.
  split; [reflexivity|].
  apply (unclassified_error_is_500 Sample.internalError). reflexivity.
Defined.

(** C7. A store-level uniqueness violation is raised by the driver: it
    carries the duplicate-key indicator ([code] 11000) and is neither a
    Mongoose ValidationError nor a CastError. For every such error the error
    handler produces status 400 and a message that names the keys of the
    error's key-conflict payload [keyValue], joined as an array prints. *)
Theorem duplicate_key_error_is_400 (err : JsError) :
  code err = Some 11000 ->
  name err <> "ValidationError" ->
  name err <> "CastError" ->
  errorHandlerMiddleware err =
    {| res_status := 400;
       res_body :=
         MsgJson ("Duplicate value entered for the "
                  ++ String.concat "," (map fst (keyValue err))
                  ++ " field. Please choose another value") |}.
Proof.
  intros D V C.
  apply isValidationError_false in V. apply isCastError_false in C.
  rewrite errorHandler_duplicate; [reflexivity| |assumption|assumption].
  unfold isDuplicate. rewrite D. reflexivity.
Qed.

Lemma duplicate_key_error_is_400_witness :
  errorHandlerMiddleware Sample.duplicateEmail =
    {| res_status := 400;
       res_body :=
         MsgJson "Duplicate value entered for the email field. Please choose another value" |}.
Proof.
  apply (duplicate_key_error_is_400 Sample.duplicateEmail);
    [reflexivity|discriminate|discriminate].
Defined.

(** C8. Every explicitly-raised domain error (NotFound, BadRequest,
    Unauthenticated) is answered by the default rule alone: none of the
    duplicate-key, validation and cast rules matches it, the status of the
    response is the error's own status, and the message is the error's own
    message verbatim. (The raise sites pass a message; [err.message ||]
    would replace an empty one.) *)
Theorem domain_error_passes_through (k : DomainErrorKind) (msg : string) :
  msg <> "" ->
  isDuplicate (CustomAPIError k msg) = false
  /\ isValidationError (CustomAPIError k msg) = false
  /\ isCastError (CustomAPIError k msg) = false
  /\ errorHandlerMiddleware (CustomAPIError k msg) =
       {| res_status := domainStatus k; res_body := MsgJson msg |}.
Proof.
  intros H. repeat split.
  rewrite errorHandler_default by reflexivity.
  unfold defaultResponse. cbn [message statusCode CustomAPIError].
  rewrite message_or_nonempty by assumption.
  destruct k; reflexivity.
Qed.

Lemma domain_error_passes_through_witness :
  errorHandlerMiddleware (NotFoundError (notFoundMsg Sample.jobId)) =
    {| res_status := 404;
       res_body :=
         MsgJson "No job with id 67d4cc1feb66701a1bb454be was found" |}.
Proof.
  apply (domain_error_passes_through NotFound (notFoundMsg Sample.jobId)).
  discriminate.
Defined.

(** C10. The rules of the error handler are applied in sequence and each
    overwrites the result of the ones before it, so the response is that of
    the last rule that matches: the cast rule wins over everything, then the
    validation rule, then the duplicate-key rule, and the default rule (the
    error's own status and message, which is what a domain error gets) only
    holds when no other rule matches. *)
Theorem last_matching_rule_wins (err : JsError) :
  errorHandlerMiddleware err =
    if isCastError err then castResponse err
    else if isValidationError err then validationResponse err
    else if isDuplicate err then duplicateResponse err
    else defaultResponse err.
Proof.
  destruct (isCastError err) eqn:C.
  - apply errorHandler_cast. exact C.
  - destruct (isValidationError err) eqn:V.
    + apply errorHandler_validation. exact V.
    + destruct (isDuplicate err) eqn:D.
      * apply errorHandler_duplicate; assumption.
      * apply errorHandler_default; assumption.
Qed.

(** ** Listing: [find] and [sort] *)

Section Sorting.

Import Job.

Lemma insertByCreatedAt_perm (j : JobDocument) (l : list JobDocument) :
  Permutation (insertByCreatedAt j l) (j :: l).
Proof.
  induction l as [|k rest IH]; simpl.
  - apply Permutation_refl.
  - destruct (createdAt j <=? createdAt k).
    + apply Permutation_refl.
    + eapply perm_trans; [apply perm_skip, IH | apply perm_swap].
Qed.

Lemma sort_perm (l : list JobDocument) : Permutation (sort l) l.
Proof.
  induction l as [|j rest IH]; simpl.
  - apply perm_nil.
  - eapply perm_trans; [apply insertByCreatedAt_perm | apply perm_skip, IH].
Qed.

Lemma createdBefore_trans (a b c : JobDocument) :
  createdBefore a b -> createdBefore b c -> createdBefore a c.
Proof. unfold createdBefore. lia. Qed.

Lemma insertByCreatedAt_sorted (j : JobDocument) (l : list JobDocument) :
  StronglySorted createdBefore l ->
  StronglySorted createdBefore (insertByCreatedAt j l).
Proof.
  induction 1 as [|k rest Hrest IH Hk]; simpl.
  - constructor; constructor.
  - destruct (createdAt j <=? createdAt k) eqn:E.
    + apply Z.leb_le in E. constructor.
      * constructor; assumption.
      * constructor; [exact E|].
        eapply Forall_impl; [|exact Hk].
        intros a Ha. eapply createdBefore_trans; [exact E | exact Ha].
    + apply Z.leb_gt in E. constructor; [exact IH|].
      eapply Permutation_Forall.
      * apply Permutation_sym, insertByCreatedAt_perm.
      * constructor; [unfold createdBefore; lia | exact Hk].
Qed.

Lemma sort_sorted (l : list JobDocument) :
  StronglySorted createdBefore (sort l).
Proof.
  induction l as [|j rest IH]; simpl.
  - constructor.
  - apply insertByCreatedAt_sorted, IH.
Qed.

Lemma In_find (userId : ObjectId) (s : Store) (j : JobDocument) :
  In j (find userId s) <-> In j s /\ createdBy j = userId.
Proof.
  unfold find, ownedBy. rewrite filter_In, N.eqb_eq. reflexivity.
Qed.

End Sorting.

(** C3. For every store and caller, the list operation succeeds with status
    200; the jobs it returns are exactly the records of the store whose
    owner is the caller (same records, same multiplicities), in ascending
    order of creation time, and the count is their number. When the caller
    owns no record the answer is the empty list with count zero, still a
    200. The store is left as it was. *)
Theorem getAllJobs_lists_own_jobs (s : Store) (userId : ObjectId) :
  exists jobs,
    getAllJobs s userId =
      (s, Sent {| res_status := 200;
                  res_body := JobsJson jobs (List.length jobs) |})
    /\ Permutation jobs (filter (fun j => N.eqb (createdBy j) userId) s)
    /\ (forall j, In j jobs <-> In j s /\ createdBy j = userId)
    /\ StronglySorted createdBefore jobs
    /\ ((forall j, In j s -> createdBy j <> userId) ->
        getAllJobs s userId =
          (s, Sent {| res_status := 200; res_body := JobsJson [] 0 |})).
Proof.
  exists (Job.sort (Job.find userId s)).
  split; [reflexivity|].
  split; [apply sort_perm|].
  split.
  - intros j. rewrite <- In_find.
    split; apply Permutation_in;
      [apply sort_perm | apply Permutation_sym, sort_perm].
  - split; [apply sort_sorted|].
    intros Hnone. unfold getAllJobs.
    assert (E : Job.find userId s = []).
    { destruct (Job.find userId s) as [|k rest] eqn:F; [reflexivity|].
      assert (Hk : In k (Job.find userId s)) by (rewrite F; left; reflexivity).
      apply In_find in Hk. destruct Hk as [Hin Ho].
      exfalso. exact (Hnone k Hin Ho). }
    rewrite E. reflexivity.
Qed.

Lemma getAllJobs_lists_own_jobs_witness :
  getAllJobs Sample.store Sample.userB =
    (Sample.store, Sent {| res_status := 200; res_body := JobsJson [] 0 |}).
Proof.
  destruct (getAllJobs_lists_own_jobs Sample.store Sample.userB)
    as (jobs & _ & _ & _ & _ & Hempty).
  apply Hempty. intros j [<-|[]]. discriminate.
Defined.

(** ** Owner-scoped queries *)

Section OwnerScoped.

Import Job.

Variable p : JobDocument -> bool.

Lemma find_no_match (s : Store) :
  (forall k, In k s -> p k = false) -> List.find p s = None.
Proof.
  induction s as [|k rest IH]; intros H; simpl; [reflexivity|].
  rewrite (H k) by (left; reflexivity).
  apply IH. intros k' Hk'. apply H. right. exact Hk'.
Qed.

Lemma updateFirst_no_match (f : JobDocument -> JobDocument) (s : Store) :
  (forall k, In k s -> p k = false) -> updateFirst p f s = (s, None).
Proof.
  induction s as [|k rest IH]; intros H; simpl; [reflexivity|].
  rewrite (H k) by (left; reflexivity).
  rewrite IH; [reflexivity|].
  intros k' Hk'. apply H. right. exact Hk'.
Qed.

Lemma removeFirst_no_match (s : Store) :
  (forall k, In k s -> p k = false) -> removeFirst p s = (s, None).
Proof.
  induction s as [|k rest IH]; intros H; simpl; [reflexivity|].
  rewrite (H k) by (left; reflexivity).
  rewrite IH; [reflexivity|].
  intros k' Hk'. apply H. right. exact Hk'.
Qed.

(** Updating the first match rewrites it where it stands. *)
Lemma updateFirst_ids (f : JobDocument -> JobDocument) (s : Store) :
  (forall k, _id (f k) = _id k) ->
  map _id (fst (updateFirst p f s)) = map _id s.
Proof.
  intros Hf. induction s as [|k rest IH]; simpl; [reflexivity|].
  destruct (p k); simpl.
  - rewrite Hf. reflexivity.
  - destruct (updateFirst p f rest) as [rest' r]. simpl in *.
    rewrite IH. reflexivity.
Qed.

Lemma removeFirst_incl (s : Store) (k : JobDocument) :
  In k (fst (removeFirst p s)) -> In k s.
Proof.
  induction s as [|h rest IH]; simpl; [tauto|].
  destruct (p h); simpl.
  - intros H. right. exact H.
  - destruct (removeFirst p rest) as [rest' r]. simpl in *.
    intros [H|H]; [left; exact H | right; apply IH; exact H].
Qed.

Lemma removeFirst_unique (s : Store) :
  UniqueIds s -> UniqueIds (fst (removeFirst p s)).
Proof.
  unfold UniqueIds.
  induction s as [|h rest IH]; simpl; intros H; [exact H|].
  inversion H as [|x l Hnotin Hnodup]; subst.
  destruct (p h); simpl; [exact Hnodup|].
  pose proof (removeFirst_incl rest) as Hincl.
  destruct (removeFirst p rest) as [rest' r]. simpl in *.
  constructor; [|apply IH; exact Hnodup].
  intros Hin. apply Hnotin.
  apply in_map_iff in Hin. destruct Hin as (k & Hk & Hin).
  apply in_map_iff. exists k. split; [exact Hk | apply Hincl; exact Hin].
Qed.

End OwnerScoped.

Lemma unique_ids_same_document (s : Store) (j k : JobDocument) :
  UniqueIds s -> In j s -> In k s -> _id k = _id j -> k = j.
Proof.
  unfold UniqueIds.
  induction s as [|h rest IH]; simpl; intros Hu Hj Hk E; [contradiction|].
  inversion Hu as [|x l Hnotin Hnodup]; subst.
  destruct Hj as [Hj|Hj], Hk as [Hk|Hk].
  - congruence.
  - subst h. exfalso. apply Hnotin. rewrite <- E. apply in_map. exact Hk.
  - subst h. exfalso. apply Hnotin. rewrite E. apply in_map. exact Hj.
  - apply IH; assumption.
Qed.

(** Under another user's identity the filter of [j]'s id matches nothing. *)
Lemma other_user_matches_nothing (s : Store) (j : JobDocument)
    (userB : ObjectId) :
  UniqueIds s -> In j s -> createdBy j <> userB ->
  forall k, In k s -> Job.matches (_id j) userB k = false.
Proof.
  intros Hu Hj Hne k Hk. unfold Job.matches, Job.ownedBy.
  destruct (N.eqb_spec (_id k) (_id j)) as [E|E]; [|reflexivity].
  rewrite (unique_ids_same_document s j k Hu Hj Hk E). simpl.
  apply N.eqb_neq. exact Hne.
Qed.

(** So does the filter of an id no document has. *)
Lemma unknown_id_matches_nothing (s : Store) (oid userId : ObjectId) :
  (forall k, In k s -> _id k <> oid) ->
  forall k, In k s -> Job.matches oid userId k = false.
Proof.
  intros H k Hk. unfold Job.matches.
  destruct (N.eqb_spec (_id k) oid) as [E|E]; [|reflexivity].
  exfalso. exact (H k Hk E).
Qed.

Lemma errorHandler_NotFoundError (jobId : string) :
  errorHandlerMiddleware (NotFoundError (notFoundMsg jobId)) =
    notFoundResponse jobId.
Proof. reflexivity. Qed.

Lemma errorHandler_ValidationError (header : string)
    (errs : list (string * ValidatorError.t)) :
  errorHandlerMiddleware (ValidationError header errs) =
    {| res_status := 400;
       res_body :=
         MsgJson (validationPrefix
                  ++ String.concat ", "
                       (map (fun e => ValidatorError.message (snd e)) errs)) |}.
Proof. reflexivity. Qed.

Lemma errorHandler_CastError (v path : string) :
  errorHandlerMiddleware (CastError v path) =
    {| res_status := 404;
       res_body := MsgJson ("No job found with an id of " ++ v) |}.
Proof. reflexivity. Qed.

(** What a request gets when its filter matches nothing: get-one and delete
    are told NotFound; update is told NotFound once its payload has passed
    the update validators, and the validation failure otherwise. *)
Section NoMatch.

Variables (s : Store) (userId oid : ObjectId) (jobId : string).
Hypothesis Hcast : castObjectId jobId = Some oid.
Hypothesis Hnone : forall k, In k s -> Job.matches oid userId k = false.

Lemma getJob_no_match :
  respond (getJob s userId jobId) = (s, notFoundResponse jobId).
Proof.
  unfold getJob, Job.findOne. rewrite Hcast.
  rewrite find_no_match by exact Hnone. reflexivity.
Qed.

Lemma deleteJob_no_match :
  respond (deleteJob s userId jobId) = (s, notFoundResponse jobId).
Proof.
  unfold deleteJob, Job.findOneAndDelete. rewrite Hcast.
  rewrite removeFirst_no_match by exact Hnone. reflexivity.
Qed.

Lemma updateJob_no_match (newData : Body.t) (env : Env) :
  respond (updateJob s userId jobId newData env) =
    (s, match JobSchema.validateUpdate newData with
        | [] => notFoundResponse jobId
        | errs =>
            errorHandlerMiddleware (ValidationError "Validation failed" errs)
        end).
Proof.
  unfold updateJob, Job.findOneAndUpdate. rewrite Hcast.
  destruct (JobSchema.validateUpdate newData) as [|e errs].
  - rewrite updateFirst_no_match by exact Hnone. reflexivity.
  - reflexivity.
Qed.

End NoMatch.

(** C1, as stated, fails for update. User B patches the id of a job of user
    A with a payload whose status is not in the enumeration: the update
    validators reject the payload before the store is asked, and B is told
    400, not NotFound. (Nothing of the job is revealed and the store is
    unchanged.) *)
Lemma cross_user_update_with_invalid_payload_is_400 :
  UniqueIds Sample.store
  /\ In Sample.job Sample.store
  /\ createdBy Sample.job = Sample.userA
  /\ Sample.userB <> Sample.userA
  /\ castObjectId Sample.jobId = Some (_id Sample.job)
  /\ respond (updateJob Sample.store Sample.userB Sample.jobId
                Sample.badStatus Sample.env) =
       (Sample.store,
        {| res_status := 400;
           res_body :=
             MsgJson "Validation failed for user creation due to the following reasons: `bogus` is not a valid enum value for path `status`." |})
  /\ snd (respond (updateJob Sample.store Sample.userB Sample.jobId
                     Sample.badStatus Sample.env))
     <> notFoundResponse Sample.jobId.
Proof.
  split.
  { unfold UniqueIds, Sample.store. simpl.
    constructor; [intros []|constructor]. }
  split; [left; reflexivity|].
  split; [reflexivity|].
  split; [discriminate|].
  split; [reflexivity|].
  split; [reflexivity|].
  intros H. vm_compute in H. discriminate H.
Qed.

(** C1, amended. For every job [j] owned by user A and every user B
    distinct from A: get-one and delete invoked by B with [j]'s id fail with
    NotFound, and so does update whenever its payload passes the update
    validators (a payload that fails them is answered with that validation
    failure); in every case the store is unchanged, and the response is the
    very response B gets for the same request on a store in which no job has
    that id, so it carries nothing of [j]. *)
Theorem cross_user_request_reveals_nothing
    (s : Store) (j : JobDocument) (userA userB : ObjectId) (jobId : string) :
  UniqueIds s ->
  In j s ->
  createdBy j = userA ->
  userB <> userA ->
  castObjectId jobId = Some (_id j) ->
  respond (getJob s userB jobId) = (s, notFoundResponse jobId)
  /\ respond (deleteJob s userB jobId) = (s, notFoundResponse jobId)
  /\ (forall newData env,
        JobSchema.validateUpdate newData = [] ->
        respond (updateJob s userB jobId newData env) =
          (s, notFoundResponse jobId))
  /\ (forall newData env,
        JobSchema.validateUpdate newData <> [] ->
        respond (updateJob s userB jobId newData env) =
          (s, errorHandlerMiddleware
                (ValidationError "Validation failed"
                   (JobSchema.validateUpdate newData))))
  /\ (forall newData env,
        carriesJob (snd (respond (updateJob s userB jobId newData env)))
          = false)
  /\ (forall s0,
        (forall k, In k s0 -> _id k <> _id j) ->
        snd (respond (getJob s userB jobId)) =
          snd (respond (getJob s0 userB jobId))
        /\ snd (respond (deleteJob s userB jobId)) =
             snd (respond (deleteJob s0 userB jobId))
        /\ forall newData env,
             snd (respond (updateJob s userB jobId newData env)) =
               snd (respond (updateJob s0 userB jobId newData env))).
Proof.
  intros Hu Hj Ho Hne Hcast.
  assert (Hnone : forall k, In k s -> Job.matches (_id j) userB k = false).
  { apply other_user_matches_nothing; [exact Hu | exact Hj | congruence]. }
  split; [apply (getJob_no_match s userB (_id j)); assumption|].
  split; [apply (deleteJob_no_match s userB (_id j)); assumption|].
  split.
  { intros newData env Hvalid.
    rewrite (updateJob_no_match s userB (_id j)) by assumption.
    rewrite Hvalid. reflexivity. }
  split.
  { intros newData env Hinvalid.
    rewrite (updateJob_no_match s userB (_id j)) by assumption.
    destruct (JobSchema.validateUpdate newData); [contradiction|reflexivity]. }
  split.
  { intros newData env.
    rewrite (updateJob_no_match s userB (_id j)) by assumption.
    destruct (JobSchema.validateUpdate newData); reflexivity. }
  intros s0 Habsent.
  assert (Hnone0 : forall k, In k s0 -> Job.matches (_id j) userB k = false).
  { apply unknown_id_matches_nothing. exact Habsent. }
  split.
  { rewrite (getJob_no_match s userB (_id j)) by assumption.
    rewrite (getJob_no_match s0 userB (_id j)) by assumption.
    reflexivity. }
  split.
  { rewrite (deleteJob_no_match s userB (_id j)) by assumption.
    rewrite (deleteJob_no_match s0 userB (_id j)) by assumption.
    reflexivity. }
  intros newData env.
  rewrite (updateJob_no_match s userB (_id j)) by assumption.
  rewrite (updateJob_no_match s0 userB (_id j)) by assumption.
  reflexivity.
Qed.

Lemma cross_user_request_reveals_nothing_witness :
  respond (getJob Sample.store Sample.userB Sample.jobId) =
    (Sample.store,
     {| res_status := 404;
        res_body :=
          MsgJson "No job with id 67d4cc1feb66701a1bb454be was found" |})
  /\ respond (updateJob Sample.store Sample.userB Sample.jobId
                Sample.newRole Sample.env) =
       (Sample.store, notFoundResponse Sample.jobId).
Proof.
  assert (Hu : UniqueIds Sample.store).
  { unfold UniqueIds, Sample.store. simpl.
    constructor; [intros []|constructor]. }
  assert (Hin : In Sample.job Sample.store) by (left; reflexivity).
  assert (Hne : Sample.userB <> Sample.userA) by discriminate.
  destruct (cross_user_request_reveals_nothing
              Sample.store Sample.job Sample.userA Sample.userB Sample.jobId
              Hu Hin eq_refl Hne eq_refl) as (Hget & _ & Hupd & _).
  split; [exact Hget|].
  apply Hupd. reflexivity.
Defined.

(** ** Creation *)

Lemma hasId_false (oid : ObjectId) (s : Store) :
  Job.hasId oid s = false <-> ~ In oid (map _id s).
Proof.
  unfold Job.hasId. induction s as [|k rest IH]; simpl.
  - split; [intros _ []|reflexivity].
  - rewrite orb_false_iff, IH, N.eqb_neq. tauto.
Qed.

(** A valid payload and a fresh identifier: the job is stored and sent. *)
Lemma createJob_succeeds (s : Store) (userId : ObjectId) (body : Body.t)
    (env : Env) (r c : string) :
  Body.role body = Some r ->
  Body.company body = Some c ->
  JobSchema.validateRole r = None ->
  JobSchema.validateCompany c = None ->
  match Body.status body with
  | Some v => JobSchema.isStatus v = true
  | None => True
  end ->
  Job.hasId (newId env) s = false ->
  let job :=
    {| _id := newId env; role := r; company := c;
       status := match Body.status body with
                 | Some v => v
                 | None => "pending"
                 end;
       createdBy := userId;
       createdAt := now env; updatedAt := now env |} in
  createJob s userId body env =
    ((s ++ [job])%list,
     Sent {| res_status := 200; res_body := JobJson job |}).
Proof.
  intros Hr Hc Vr Vc Vs Hfresh. unfold createJob, Job.create.
  unfold JobSchema.validateDocument, JobSchema.missingRequired,
    JobSchema.validateSet.
  cbn [Body.set_createdBy Body.role Body.company Body.status Body.createdBy].
  rewrite Hr, Hc, Vr, Vc.
  destruct (Body.status body) as [v|]; simpl.
  - unfold JobSchema.validateStatus. rewrite Vs. simpl.
    rewrite Hfresh. reflexivity.
  - rewrite Hfresh. reflexivity.
Qed.

(** On an object body the owner is the caller. Whatever owner value the
    client puts in the object, the request behaves as if it had put none:
    the handler overwrites [createdBy] with the caller's identity before the
    model sees the object. Whenever the request succeeds, exactly one
    document is added to the store, it is the one sent back, and its owner
    is the caller; a request that fails stores nothing. *)
Theorem createJob_owner_is_caller (s : Store) (userId : ObjectId)
    (body : Body.t) (env : Env) :
  (forall supplied : option ObjectId,
     createJob s userId (Body.set_createdBy supplied body) env =
       createJob s userId body env)
  /\ (forall s' res,
        createJob s userId body env = (s', Sent res) ->
        exists job,
          res = {| res_status := 200; res_body := JobJson job |}
          /\ s' = (s ++ [job])%list
          /\ createdBy job = userId)
  /\ (forall s' err, createJob s userId body env = (s', Thrown err) -> s' = s).
Proof.
  split; [intros supplied; reflexivity|].
  unfold createJob, Job.create.
  destruct (JobSchema.validateDocument (Body.set_createdBy (Some userId) body))
    as [|e errs].
  - destruct (Job.hasId (newId env) s).
    + split; [intros s' res H; discriminate H|].
      intros s' err H. inversion H. reflexivity.
    + split; [|intros s' err H; discriminate H].
      intros s' res H. inversion H; subst.
      eexists. split; [reflexivity|]. split; reflexivity.
  - split; [intros s' res H; discriminate H|].
    intros s' err H. inversion H. reflexivity.
Qed.

Lemma createJob_owner_is_caller_witness :
  Body.createdBy Sample.engineerAtAcme = Some Sample.userB
  /\ exists job,
       createJob Sample.store Sample.userA Sample.engineerAtAcme Sample.env =
         ((Sample.store ++ [job])%list,
          Sent {| res_status := 200; res_body := JobJson job |})
       /\ createdBy job = Sample.userA
       /\ status job = "pending".
Proof.
  split; [reflexivity|].
  destruct (createJob_owner_is_caller
              Sample.store Sample.userA Sample.engineerAtAcme Sample.env)
    as (_ & Hsent & _).
  destruct (Hsent _ _ eq_refl) as (job & Hres & Hstore & Howner).
  exists job. inversion Hres; subst job.
  split; [reflexivity|]. split; reflexivity.
Defined.

(** C5. For every error named ValidationError the error handler produces
    status 400 and a message that is the handler's fixed opening followed by
    every field-level message of [err.errors], in order, joined with comma
    and space. In particular a create request with neither role nor company
    is answered 400 with the messages of both missing fields, company then
    role, and nothing is stored. *)
Theorem validation_failure_is_400 :
  (forall err : JsError,
     name err = "ValidationError" ->
     errorHandlerMiddleware err =
       {| res_status := 400;
          res_body :=
            MsgJson
              ("Validation failed for user creation due to the following reasons: "
               ++ String.concat ", "
                    (map (fun e => ValidatorError.message (snd e))
                         (errors err))) |})
  /\ (forall (s : Store) (userId : ObjectId) (body : Body.t) (env : Env),
        Body.role body = None ->
        Body.company body = None ->
        exists rest,
          respond (createJob s userId body env) =
            (s, {| res_status := 400;
                   res_body :=
                     MsgJson
                       ("Validation failed for user creation due to the following reasons: "
                        ++ "Please enter a company name, Please provide a role"
                        ++ rest) |})
          /\ (match Body.status body with
              | Some v => JobSchema.isStatus v = true
              | None => True
              end -> rest = "")).
Proof.
  split.
  - intros err H. apply isValidationError_true in H.
    rewrite errorHandler_validation by exact H. reflexivity.
  - intros s userId body env Hr Hc.
    unfold createJob, Job.create, JobSchema.validateDocument,
      JobSchema.missingRequired, JobSchema.validateSet.
    cbn [Body.set_createdBy Body.role Body.company Body.status
         Body.createdBy].
    rewrite Hr, Hc.
    destruct (Body.status body) as [v|].
    + unfold JobSchema.validateStatus.
      destruct (JobSchema.isStatus v).
      * exists "". split; [reflexivity|intros _; reflexivity].
      * eexists. split; [reflexivity|]. intros H. discriminate H.
    + exists "". split; [reflexivity|intros _; reflexivity].
Qed.

Lemma validation_failure_is_400_witness :
  errorHandlerMiddleware Sample.missingCredentials =
    {| res_status := 400;
       res_body :=
         MsgJson "Validation failed for user creation due to the following reasons: Please provide a password, Please provide an email" |}
  /\ respond (createJob Sample.store Sample.userA Sample.emptyBody Sample.env) =
       (Sample.store,
        {| res_status := 400;
           res_body :=
             MsgJson "Validation failed for user creation due to the following reasons: Please enter a company name, Please provide a role" |}).
Proof.
  destruct validation_failure_is_400 as [Hshape Hcreate].
  split.
  - apply (Hshape Sample.missingCredentials). reflexivity.
  - destruct (Hcreate Sample.store Sample.userA Sample.emptyBody Sample.env
                eq_refl eq_refl) as (rest & E & Hrest).
    rewrite E, (Hrest I). reflexivity.
Defined.

(** C6. For every error named CastError the error handler produces status
    404, whatever else the error carries, and a message that names the value
    that could not be cast. In particular a get-one, update or delete
    request whose [:id] segment is not identifier-shaped is answered 404
    with a message naming that segment, and the store is not touched. *)
Theorem cast_failure_is_404 :
  (forall err : JsError,
     name err = "CastError" ->
     errorHandlerMiddleware err =
       {| res_status := 404;
          res_body := MsgJson ("No job found with an id of " ++ value err) |})
  /\ (forall (s : Store) (userId : ObjectId) (jobId : string)
             (newData : Body.t) (env : Env),
        castObjectId jobId = None ->
        let answer :=
          (s, {| res_status := 404;
                 res_body :=
                   MsgJson ("No job found with an id of " ++ jobId) |}) in
        respond (getJob s userId jobId) = answer
        /\ respond (updateJob s userId jobId newData env) = answer
        /\ respond (deleteJob s userId jobId) = answer).
Proof.
  split.
  - intros err H. apply isCastError_true in H.
    rewrite errorHandler_cast by exact H. reflexivity.
  - intros s userId jobId newData env Hcast answer. subst answer.
    unfold getJob, updateJob, deleteJob.
    unfold Job.findOne, Job.findOneAndUpdate, Job.findOneAndDelete.
    rewrite Hcast. repeat split; reflexivity.
Qed.

Lemma cast_failure_is_404_witness :
  errorHandlerMiddleware Sample.badId =
    {| res_status := 404;
       res_body := MsgJson "No job found with an id of 67d4cc1feb66701a1bb454bee" |}
  /\ respond (getJob Sample.store Sample.userA "67d4cc1feb66701a1bb454bee") =
       (Sample.store,
        {| res_status := 404;
           res_body :=
             MsgJson "No job found with an id of 67d4cc1feb66701a1bb454bee" |}).
Proof.
  destruct cast_failure_is_404 as [Hshape Hroute].
  split.
  - apply (Hshape Sample.badId). reflexivity.
  - apply (Hroute Sample.store Sample.userA "67d4cc1feb66701a1bb454bee"
             Sample.emptyBody Sample.env).
    reflexivity.
Defined.

(** ** Update *)

Lemma isStatus_spec (v : string) :
  JobSchema.isStatus v = true <->
  v = "interview" \/ v = "pending" \/ v = "declined".
Proof.
  unfold JobSchema.isStatus, JobSchema.statusEnum. simpl.
  rewrite !orb_true_iff, !String.eqb_eq.
  split; [intros [H|[H|[H|H]]]; [tauto|tauto|tauto|discriminate H] | tauto].
Qed.

(** A status outside the enumeration fails the update validators. *)
Lemma validateUpdate_bad_status (newData : Body.t) (v : string) :
  Body.status newData = Some v ->
  JobSchema.isStatus v = false ->
  JobSchema.validateUpdate newData <> [].
Proof.
  intros Hs Hv. unfold JobSchema.validateUpdate, JobSchema.validateSet.
  rewrite Hs. unfold JobSchema.validateStatus. rewrite Hv. simpl.
  intros H. apply app_eq_nil in H. destruct H as [_ H].
  apply app_eq_nil in H. destruct H as [_ H]. discriminate H.
Qed.

Lemma replaceById_absent (oid : ObjectId) (f : JobDocument -> JobDocument)
    (s : Store) :
  ~ In oid (map _id s) -> replaceById oid f s = s.
Proof.
  unfold replaceById. induction s as [|k rest IH]; simpl; intros H.
  - reflexivity.
  - destruct (N.eqb_spec (_id k) oid) as [E|E]; [tauto|].
    rewrite IH by tauto. reflexivity.
Qed.

(** With unique ids the first match of the owner's filter is the owner's
    document, and updating it is rewriting the document of that id. *)
Lemma updateFirst_own_document (f : JobDocument -> JobDocument) (s : Store)
    (j : JobDocument) :
  UniqueIds s ->
  In j s ->
  Job.updateFirst (Job.matches (_id j) (createdBy j)) f s =
    (replaceById (_id j) f s, Some (f j)).
Proof.
  unfold UniqueIds.
  induction s as [|h rest IH]; simpl; intros Hu Hj; [contradiction|].
  inversion Hu as [|x l Hnotin Hnodup]; subst.
  unfold Job.matches at 1, Job.ownedBy.
  destruct Hj as [Hj|Hj].
  - subst h. rewrite !N.eqb_refl. simpl.
    rewrite replaceById_absent by exact Hnotin. reflexivity.
  - assert (E : N.eqb (_id h) (_id j) = false).
    { apply N.eqb_neq. intros E. apply Hnotin. rewrite E.
      apply in_map. exact Hj. }
    rewrite E. simpl. rewrite IH by assumption. reflexivity.
Qed.

Section OwnUpdate.

Variables (s : Store) (j : JobDocument) (userId : ObjectId)
          (jobId : string) (newData : Body.t) (env : Env).
Hypothesis Hunique : UniqueIds s.
Hypothesis Hin : In j s.
Hypothesis Howner : createdBy j = userId.
Hypothesis Hcast : castObjectId jobId = Some (_id j).


Lemma updateJob_valid :
  JobSchema.validateUpdate newData = [] ->
  respond (updateJob s userId jobId newData env) =
    (replaceById (_id j) (Job.applyUpdate newData env) s,
     {| res_status := 200;
        res_body := UpdatedJobJson (Job.applyUpdate newData env j) |}).
Proof.
  intros Hok. unfold updateJob, Job.findOneAndUpdate.
  rewrite Hcast, Hok. subst userId.
  rewrite updateFirst_own_document by assumption. reflexivity.
Qed.


End OwnUpdate.

(** ** The store invariant

    Every handler leaves the ids of the store unique, so the uniqueness the
    properties above assume holds of every store the handlers reach from the
    empty collection. *)

Lemma createJob_unique (s : Store) (userId : ObjectId) (body : Body.t)
    (env : Env) :
  UniqueIds s -> UniqueIds (fst (createJob s userId body env)).
Proof.
  intros Hu. unfold createJob, Job.create.
  destruct (JobSchema.validateDocument _) as [|e errs]; [|exact Hu].
  destruct (Job.hasId (newId env) s) eqn:Hfresh; [exact Hu|].
  simpl. unfold UniqueIds. rewrite map_app. simpl.
  eapply Permutation_NoDup; [apply Permutation_cons_append|].
  constructor; [apply hasId_false; exact Hfresh | exact Hu].
Qed.

Lemma updateJob_unique (s : Store) (userId : ObjectId) (jobId : string)
    (newData : Body.t) (env : Env) :
  UniqueIds s -> UniqueIds (fst (updateJob s userId jobId newData env)).
Proof.
  intros Hu. unfold updateJob, Job.findOneAndUpdate.
  destruct (castObjectId jobId) as [oid|]; [|exact Hu].
  destruct (JobSchema.validateUpdate newData) as [|e errs]; [|exact Hu].
  pose proof (updateFirst_ids (Job.matches oid userId)
                (Job.applyUpdate newData env) s (fun k => eq_refl)) as Hids.
  destruct (Job.updateFirst _ _ s) as [s' [updated|]];
    simpl in *; unfold UniqueIds; rewrite Hids; exact Hu.
Qed.

Lemma deleteJob_unique (s : Store) (userId : ObjectId) (jobId : string) :
  UniqueIds s -> UniqueIds (fst (deleteJob s userId jobId)).
Proof.
  intros Hu. unfold deleteJob, Job.findOneAndDelete.
  destruct (castObjectId jobId) as [oid|]; [|exact Hu].
  pose proof (removeFirst_unique (Job.matches oid userId) s Hu) as Hrem.
  destruct (Job.removeFirst _ s) as [s' [deleted|]]; exact Hrem.
Qed.

(** ** Worked requests *)

(** An error that carries the duplicate-key indicator and a status of its
    own, and is named ValidationError, is answered by the validation rule. *)
Example validation_rule_overrides_duplicate_rule :
  errorHandlerMiddleware
    {| statusCode := Some 401; message := "E11000"; code := Some 11000;
       keyValue := [("email", KeyString "a@b.c")];
       name := "ValidationError";
       errors := [("email",
                   ValidatorError.mk "email" "user defined"
                     "Please provide a valid email")];
       value := "" |} =
    {| res_status := 400;
       res_body :=
         MsgJson "Validation failed for user creation due to the following reasons: Please provide a valid email" |}.
Proof. reflexivity. Qed.

(** The same error named CastError is answered by the cast rule. *)
Example cast_rule_overrides_duplicate_rule :
  errorHandlerMiddleware
    {| statusCode := Some 401; message := "E11000"; code := Some 11000;
       keyValue := [("email", KeyString "a@b.c")];
       name := "CastError"; errors := []; value := "zzz" |} =
    {| res_status := 404;
       res_body := MsgJson "No job found with an id of zzz" |}.
Proof. reflexivity. Qed.

(** A create that is handed an identifier the collection already holds is
    refused by the store, and the duplicate-key rule answers. *)
Example create_with_taken_id :
  respond (createJob Sample.store Sample.userB Sample.engineerAtAcme
             {| now := 2000; newId := Sample.oid |}) =
    (Sample.store,
     {| res_status := 400;
        res_body :=
          MsgJson "Duplicate value entered for the _id field. Please choose another value" |}).
Proof. reflexivity. Qed.

(** The scenario of the specification: a user creates a job, lists it,
    deletes it, and then no longer finds it. *)
Example create_list_delete_get :
  let u := Sample.userA in
  let id := "00000000000000000000004d" in
  let body := Body.mk (Some "Engineer") (Some "Acme") None None in
  let job :=
    {| _id := 77%N; role := "Engineer"; company := "Acme";
       status := "pending"; createdBy := u;
       createdAt := 2000; updatedAt := 2000 |} in
  respond (createJob [] u body Sample.env) =
    ([job], {| res_status := 200; res_body := JobJson job |})
  /\ respond (getAllJobs [job] u) =
       ([job], {| res_status := 200; res_body := JobsJson [job] 1 |})
  /\ respond (deleteJob [job] u id) =
       ([], {| res_status := 200; res_body := NoBody |})
  /\ respond (getJob [] u id) =
       ([], {| res_status := 404;
               res_body :=
                 MsgJson "No job with id 00000000000000000000004d was found" |}).
Proof. repeat split; reflexivity. Qed.

(** * Further properties of the job routes *)

(** ** What the owner gets *)

Lemma find_own_document (s : Store) (j : JobDocument) :
  UniqueIds s ->
  In j s ->
  List.find (Job.matches (_id j) (createdBy j)) s = Some j.
Proof.
  unfold UniqueIds.
  induction s as [|h rest IH]; simpl; intros Hu Hj; [contradiction|].
  inversion Hu as [|x l Hnotin Hnodup]; subst.
  unfold Job.matches at 1, Job.ownedBy.
  destruct Hj as [Hj|Hj].
  - subst h. rewrite !N.eqb_refl. reflexivity.
  - assert (E : N.eqb (_id h) (_id j) = false).
    { apply N.eqb_neq. intros E. apply Hnotin. rewrite E.
      apply in_map. exact Hj. }
    rewrite E. simpl. apply IH; assumption.
Qed.

Lemma removeById_absent (oid : ObjectId) (s : Store) :
  ~ In oid (map _id s) -> removeById oid s = s.
Proof.
  unfold removeById. induction s as [|k rest IH]; simpl; intros H.
  - reflexivity.
  - destruct (N.eqb_spec (_id k) oid) as [E|E]; [tauto|].
    simpl. rewrite IH by tauto. reflexivity.
Qed.

Lemma removeFirst_own_document (s : Store) (j : JobDocument) :
  UniqueIds s ->
  In j s ->
  Job.removeFirst (Job.matches (_id j) (createdBy j)) s =
    (removeById (_id j) s, Some j).
Proof.
  unfold UniqueIds.
  induction s as [|h rest IH]; simpl; intros Hu Hj; [contradiction|].
  inversion Hu as [|x l Hnotin Hnodup]; subst.
  unfold Job.matches at 1, Job.ownedBy.
  destruct Hj as [Hj|Hj].
  - subst h. rewrite !N.eqb_refl. simpl.
    rewrite removeById_absent by exact Hnotin. reflexivity.
  - assert (E : N.eqb (_id h) (_id j) = false).
    { apply N.eqb_neq. intros E. apply Hnotin. rewrite E.
      apply in_map. exact Hj. }
    rewrite E. simpl. rewrite IH by assumption. reflexivity.
Qed.

Lemma In_removeById (oid : ObjectId) (s : Store) (k : JobDocument) :
  In k (removeById oid s) <-> In k s /\ _id k <> oid.
Proof.
  unfold removeById. rewrite filter_In, negb_true_iff, N.eqb_neq.
  reflexivity.
Qed.

(** X1. With unique ids, get-one answers 200 with a job exactly when that
    job is in the store, is owned by the caller and has the requested id:
    the owner always gets the job, and nothing but a stored job of the
    caller with that id is ever sent. *)
Theorem getJob_sends_exactly_own_job
    (s : Store) (userId : ObjectId) (jobId : string) (j : JobDocument) :
  UniqueIds s ->
  (respond (getJob s userId jobId) =
     (s, {| res_status := 200; res_body := JobJson j |})
   <-> In j s /\ createdBy j = userId /\ castObjectId jobId = Some (_id j)).
Proof.
  intros Hu. split.
  - unfold getJob, Job.findOne.
    destruct (castObjectId jobId) as [oid|]; [|intros H; discriminate H].
    destruct (List.find (Job.matches oid userId) s) as [k|] eqn:F;
      [|intros H; discriminate H].
    intros H. inversion H; subst k.
    apply find_some in F. destruct F as [Hin Hm].
    unfold Job.matches, Job.ownedBy in Hm.
    apply andb_prop in Hm. destruct Hm as [Hid Ho].
    apply N.eqb_eq in Hid. apply N.eqb_eq in Ho.
    split; [exact Hin|]. split; [exact Ho|]. rewrite Hid. reflexivity.
  - intros (Hin & Ho & Hcast). unfold getJob, Job.findOne.
    rewrite Hcast. subst userId.
    rewrite find_own_document by assumption. reflexivity.
Qed.

Lemma getJob_sends_exactly_own_job_witness :
  respond (getJob Sample.store Sample.userA Sample.jobId) =
    (Sample.store, {| res_status := 200; res_body := JobJson Sample.job |}).
Proof.
  assert (Hu : UniqueIds Sample.store).
  { unfold UniqueIds, Sample.store. simpl.
    constructor; [intros []|constructor]. }
  apply (getJob_sends_exactly_own_job
           Sample.store Sample.userA Sample.jobId Sample.job Hu).
  split; [left; reflexivity|]. split; reflexivity.
Defined.

(** X2. Delete by the owner answers 200 with no body and removes exactly
    the addressed job: the job is gone, every other document stays, and the
    collection is one document shorter. *)
Theorem deleteJob_removes_exactly_own_job
    (s : Store) (userId : ObjectId) (jobId : string) (j : JobDocument) :
  UniqueIds s ->
  In j s ->
  createdBy j = userId ->
  castObjectId jobId = Some (_id j) ->
  respond (deleteJob s userId jobId) =
    (removeById (_id j) s, {| res_status := 200; res_body := NoBody |})
  /\ ~ In j (removeById (_id j) s)
  /\ (forall k, In k s -> k <> j -> In k (removeById (_id j) s))
  /\ List.length s = S (List.length (removeById (_id j) s)).
Proof.
  intros Hu Hj Ho Hcast.
  assert (Hrun : Job.removeFirst (Job.matches (_id j) userId) s =
                 (removeById (_id j) s, Some j)).
  { subst userId. apply removeFirst_own_document; assumption. }
  split.
  { unfold deleteJob, Job.findOneAndDelete. rewrite Hcast, Hrun.
    reflexivity. }
  split.
  { rewrite In_removeById. intros [_ H]. apply H. reflexivity. }
  split.
  { intros k Hk Hne. apply In_removeById. split; [exact Hk|].
    intros E. apply Hne.
    apply (unique_ids_same_document s j k Hu Hj Hk E). }
  clear Hrun Hcast Ho userId jobId. unfold UniqueIds in Hu.
  induction s as [|h rest IH]; simpl in *; [contradiction|].
  inversion Hu as [|x l Hnotin Hnodup]; subst.
  destruct Hj as [Hj|Hj].
  - subst h. rewrite N.eqb_refl. simpl.
    fold (removeById (_id j) rest).
    rewrite removeById_absent by exact Hnotin. reflexivity.
  - assert (E : N.eqb (_id h) (_id j) = false).
    { apply N.eqb_neq. intros E. apply Hnotin. rewrite E.
      apply in_map. exact Hj. }
    rewrite E. simpl. fold (removeById (_id j) rest).
    rewrite <- IH by assumption. reflexivity.
Qed.

Lemma deleteJob_removes_exactly_own_job_witness :
  respond (deleteJob Sample.store Sample.userA Sample.jobId) =
    ([], {| res_status := 200; res_body := NoBody |}).
Proof.
  assert (Hu : UniqueIds Sample.store).
  { unfold UniqueIds, Sample.store. simpl.
    constructor; [intros []|constructor]. }
  assert (Hin : In Sample.job Sample.store) by (left; reflexivity).
  destruct (deleteJob_removes_exactly_own_job
              Sample.store Sample.userA Sample.jobId Sample.job
              Hu Hin eq_refl eq_refl) as (Hrun & _).
  exact Hrun.
Defined.

(** X3. Once the owner has deleted a job, its id is answered NotFound: a
    later get-one or delete of the same id, by anyone, fails with 404 and
    changes nothing. *)
Theorem deleted_job_is_not_found
    (s : Store) (userId anyone : ObjectId) (jobId : string)
    (j : JobDocument) :
  UniqueIds s ->
  In j s ->
  createdBy j = userId ->
  castObjectId jobId = Some (_id j) ->
  let s' := fst (respond (deleteJob s userId jobId)) in
  respond (getJob s' anyone jobId) = (s', notFoundResponse jobId)
  /\ respond (deleteJob s' anyone jobId) = (s', notFoundResponse jobId).
Proof.
  intros Hu Hj Ho Hcast s'.
  assert (E : s' = removeById (_id j) s).
  { subst s'. unfold deleteJob, Job.findOneAndDelete. rewrite Hcast.
    subst userId. rewrite removeFirst_own_document by assumption.
    reflexivity. }
  assert (Hnone : forall k, In k s' -> Job.matches (_id j) anyone k = false).
  { apply unknown_id_matches_nothing. intros k Hk. rewrite E in Hk.
    apply In_removeById in Hk. tauto. }
  split.
  - apply (getJob_no_match s' anyone (_id j)); assumption.
  - apply (deleteJob_no_match s' anyone (_id j)); assumption.
Qed.

Lemma deleted_job_is_not_found_witness :
  respond (getJob [] Sample.userA Sample.jobId) =
    ([], notFoundResponse Sample.jobId).
Proof.
  assert (Hu : UniqueIds Sample.store).
  { unfold UniqueIds, Sample.store. simpl.
    constructor; [intros []|constructor]. }
  assert (Hin : In Sample.job Sample.store) by (left; reflexivity).
  destruct (deleted_job_is_not_found
              Sample.store Sample.userA Sample.userA Sample.jobId Sample.job
              Hu Hin eq_refl eq_refl) as (Hget & _).
  exact Hget.
Defined.

(** ** What create accepts *)

Lemma validateRole_ok (v : string) :
  JobSchema.validateRole v = None <->
  v <> "" /\ (String.length v <= 100)%nat.
Proof.
  unfold JobSchema.validateRole.
  destruct (String.eqb_spec v "") as [E|E].
  - split; [intros H; discriminate H | intros [H _]; contradiction].
  - destruct (Nat.ltb_spec 100 (String.length v)) as [L|L].
    + split; [intros H; discriminate H | intros [_ H]; lia].
    + split; [intros _; split; [exact E|lia] | reflexivity].
Qed.

Lemma validateCompany_ok (v : string) :
  JobSchema.validateCompany v = None <->
  v <> "" /\ (String.length v <= 50)%nat.
Proof.
  unfold JobSchema.validateCompany.
  destruct (String.eqb_spec v "") as [E|E].
  - split; [intros H; discriminate H | intros [H _]; contradiction].
  - destruct (Nat.ltb_spec 50 (String.length v)) as [L|L].
    + split; [intros H; discriminate H | intros [_ H]; lia].
    + split; [intros _; split; [exact E|lia] | reflexivity].
Qed.

Lemma validateStatus_ok (v : string) :
  JobSchema.validateStatus v = None <->
  v = "interview" \/ v = "pending" \/ v = "declined".
Proof.
  unfold JobSchema.validateStatus. rewrite <- isStatus_spec.
  destruct (JobSchema.isStatus v).
  - split; reflexivity.
  - split; intros H; discriminate H.
Qed.

Lemma pathError_nil (path : string) (e : option ValidatorError.t) :
  JobSchema.pathError path e = [] <-> e = None.
Proof.
  destruct e; simpl; split; intros H; try discriminate H; reflexivity.
Qed.

Lemma app_nil_both {A : Type} (l l' : list A) :
  (l ++ l' = [])%list <-> l = [] /\ l' = [].
Proof.
  split; [apply app_eq_nil | intros [-> ->]; reflexivity].
Qed.

Lemma set_path_ok (validate : string -> option ValidatorError.t)
    (P : string -> Prop) (o : option string) :
  (forall v, validate v = None <-> P v) ->
  (match o with Some v => validate v | None => None end = None
   <-> forall v, o = Some v -> P v).
Proof.
  intros Hv. destruct o as [w|].
  - rewrite Hv. split.
    + intros H v E. inversion E; subst. exact H.
    + intros H. apply H. reflexivity.
  - split; [intros _ v E; discriminate E | reflexivity].
Qed.

Lemma validateSet_nil (b : Body.t) :
  JobSchema.validateSet b = [] <-> setPathsPass b.
Proof.
  unfold JobSchema.validateSet, setPathsPass.
  rewrite !app_nil_both, !pathError_nil.
  rewrite (set_path_ok JobSchema.validateRole _ _ validateRole_ok).
  rewrite (set_path_ok JobSchema.validateCompany _ _ validateCompany_ok).
  rewrite (set_path_ok JobSchema.validateStatus _ _ validateStatus_ok).
  reflexivity.
Qed.

Lemma validateDocument_stamped_nil (userId : ObjectId) (body : Body.t) :
  JobSchema.validateDocument (Body.set_createdBy (Some userId) body) = []
  <-> (exists r, Body.role body = Some r)
      /\ (exists c, Body.company body = Some c)
      /\ setPathsPass body.
Proof.
  unfold JobSchema.validateDocument.
  rewrite app_nil_both.
  change (JobSchema.validateSet (Body.set_createdBy (Some userId) body))
    with (JobSchema.validateSet body).
  rewrite validateSet_nil.
  unfold JobSchema.missingRequired.
  cbn [Body.set_createdBy Body.role Body.company Body.createdBy].
  destruct (Body.role body) as [r|], (Body.company body) as [c|]; simpl.
  - split; [intros [_ H]; eauto | intros (_ & _ & H); auto].
  - split; [intros [H _]; discriminate H | intros (_ & [c E] & _);
                                            discriminate E].
  - split; [intros [H _]; discriminate H | intros ([r E] & _);
                                            discriminate E].
  - split; [intros [H _]; discriminate H | intros ([r E] & _);
                                            discriminate E].
Qed.

(** X4. On a body that is one object naming only role, company, status
    and createdBy, with strings at the first three: create succeeds exactly
    when the object holds a role of 1 to 100 characters and a company of 1
    to 50 characters, its status is absent or one of the three values, and
    the generated id is unused. It then appends one job with the object's
    role and company, the object's status or [pending], the caller as owner
    and both timestamps at the current time, and sends it with 200. For
    every other such object it answers 400 and stores nothing. (An array
    body takes another path.) *)
Theorem createJob_accepts_exactly_valid_payloads
    (s : Store) (userId : ObjectId) (body : Body.t) (env : Env) :
  (exists r c,
     Body.role body = Some r
     /\ Body.company body = Some c
     /\ setPathsPass body
     /\ ~ In (newId env) (map _id s)
     /\ respond (createJobAny s userId (ObjectBody body) (fun _ => env)) =
          let job :=
            {| _id := newId env; role := r; company := c;
               status := match Body.status body with
                         | Some v => v
                         | None => "pending"
                         end;
               createdBy := userId;
               createdAt := now env; updatedAt := now env |} in
          ((s ++ [job])%list,
           {| res_status := 200; res_body := JobJson job |}))
  \/ ((Body.role body = None \/ Body.company body = None
       \/ ~ setPathsPass body \/ In (newId env) (map _id s))
      /\ exists msg,
           respond (createJobAny s userId (ObjectBody body) (fun _ => env)) =
             (s, {| res_status := 400; res_body := MsgJson msg |})).
Proof.
  change (createJobAny s userId (ObjectBody body) (fun _ => env))
    with (createJob s userId body env).
  destruct (JobSchema.validateDocument
              (Body.set_createdBy (Some userId) body)) as [|e errs] eqn:V.
  - pose proof (proj1 (validateDocument_stamped_nil userId body) V)
      as ([r Hr] & [c Hc] & Hpass).
    destruct (Job.hasId (newId env) s) eqn:Hfresh.
    + right. split.
      * right. right. right.
        destruct (in_dec N.eq_dec (newId env) (map _id s)) as [H|H];
          [exact H|].
        apply hasId_false in H. congruence.
      * eexists. unfold createJob, Job.create. rewrite V, Hfresh.
        reflexivity.
    + left. exists r, c.
      split; [exact Hr|]. split; [exact Hc|]. split; [exact Hpass|].
      split; [apply hasId_false; exact Hfresh|].
      unfold createJob, Job.create. rewrite V, Hfresh.
      cbn [Body.set_createdBy Body.role Body.company Body.status
           Body.createdBy].
      rewrite Hr, Hc. reflexivity.
  - right. split.
    + destruct (Body.role body) as [r|] eqn:Hr; [|left; reflexivity].
      destruct (Body.company body) as [c|] eqn:Hc;
        [|right; left; reflexivity].
      right. right. left. intros Hpass.
      assert (H : JobSchema.validateDocument
                    (Body.set_createdBy (Some userId) body) = []).
      { apply validateDocument_stamped_nil.
        rewrite Hr, Hc. eauto. }
      rewrite V in H. discriminate H.
    + eexists. unfold createJob, Job.create. rewrite V. reflexivity.
Qed.

(** ** How requests compose *)

Lemma fst_respond (o : Store * Outcome) : fst (respond o) = fst o.
Proof. destruct o as [s [res|err]]; reflexivity. Qed.

Lemma createJob_sent (s s' : Store) (userId : ObjectId) (body : Body.t)
    (env : Env) (res : Response) (job : JobDocument) :
  respond (createJob s userId body env) = (s', res) ->
  res_body res = JobJson job ->
  s' = (s ++ [job])%list
  /\ createdBy job = userId
  /\ _id job = newId env
  /\ Job.hasId (newId env) s = false.
Proof.
  unfold createJob, Job.create.
  destruct (JobSchema.validateDocument _) as [|e errs].
  - destruct (Job.hasId (newId env) s) eqn:Hfresh; simpl.
    + intros H. inversion H; subst. intros B. discriminate B.
    + intros H. inversion H; subst. simpl. intros B. inversion B; subst.
      repeat split; reflexivity.
  - simpl. intros H. inversion H; subst. intros B. discriminate B.
Qed.

Lemma find_app_none (p : JobDocument -> bool) (l l' : list JobDocument) :
  List.find p l = None -> List.find p (l ++ l') = List.find p l'.
Proof.
  induction l as [|k rest IH]; simpl; [reflexivity|].
  destruct (p k); [intros H; discriminate H | exact IH].
Qed.

Lemma hasId_matches_nothing (oid userId : ObjectId) (s : Store) :
  Job.hasId oid s = false ->
  forall k, In k s -> Job.matches oid userId k = false.
Proof.
  intros H. apply unknown_id_matches_nothing.
  intros k Hk E. apply hasId_false in H. apply H.
  rewrite <- E. apply in_map. exact Hk.
Qed.

(** X5. A job that create has just sent can be read back: get-one by the
    same caller with that job's id answers 200 with the very same job, and
    the caller's list now holds it, next to everything it held before, with
    a count one higher. *)
Theorem created_job_is_retrievable
    (s s' : Store) (userId : ObjectId) (body : Body.t) (env : Env)
    (job : JobDocument) (jobId : string) :
  respond (createJob s userId body env) =
    (s', {| res_status := 200; res_body := JobJson job |}) ->
  castObjectId jobId = Some (_id job) ->
  respond (getJob s' userId jobId) =
    (s', {| res_status := 200; res_body := JobJson job |})
  /\ forall jobs n,
       listed s userId =
         {| res_status := 200; res_body := JobsJson jobs n |} ->
       exists jobs',
         listed s' userId =
           {| res_status := 200; res_body := JobsJson jobs' (S n) |}
         /\ In job jobs'
         /\ forall k, In k jobs -> In k jobs'.
Proof.
  intros Hrun Hcast.
  destruct (createJob_sent s s' userId body env _ job Hrun eq_refl)
    as (Hs' & Ho & Hid & Hfresh).
  split.
  - unfold getJob, Job.findOne. rewrite Hcast, Hs', Hid.
    rewrite find_app_none.
    + simpl. unfold Job.matches, Job.ownedBy.
      rewrite Hid, Ho, !N.eqb_refl. reflexivity.
    + apply find_no_match. apply hasId_matches_nothing. exact Hfresh.
  - intros jobs n Hlist. unfold listed, getAllJobs in *. simpl in *.
    inversion Hlist; subst jobs n. clear Hlist.
    exists (Job.sort (Job.find userId s')).
    assert (Hfind : Job.find userId s' = (Job.find userId s ++ [job])%list).
    { rewrite Hs'. unfold Job.find. rewrite filter_app. simpl.
      unfold Job.ownedBy at 2. rewrite Ho, N.eqb_refl. reflexivity. }
    assert (Hperm : Permutation (Job.sort (Job.find userId s'))
                      (Job.find userId s ++ [job])%list).
    { rewrite <- Hfind. apply sort_perm. }
    split.
    + f_equal. f_equal.
      rewrite (Permutation_length Hperm), length_app. simpl.
      rewrite (Permutation_length (sort_perm (Job.find userId s))). lia.
    + split.
      * eapply Permutation_in; [apply Permutation_sym; exact Hperm|].
        apply in_or_app. right. left. reflexivity.
      * intros k Hk.
        eapply Permutation_in; [apply Permutation_sym; exact Hperm|].
        apply in_or_app. left.
        eapply Permutation_in; [apply sort_perm | exact Hk].
Qed.

Lemma created_job_is_retrievable_witness :
  exists job,
    respond (getJob (Sample.store ++ [job])%list Sample.userB
               "00000000000000000000004d") =
      ((Sample.store ++ [job])%list,
       {| res_status := 200; res_body := JobJson job |})
    /\ role job = "Engineer".
Proof.
  eexists. split.
  - apply (created_job_is_retrievable
             Sample.store _ Sample.userB Sample.engineerAtAcme Sample.env
             _ "00000000000000000000004d"); reflexivity.
  - reflexivity.
Defined.

Lemma filter_removeFirst (q p : JobDocument -> bool) (s : Store) :
  (forall k, p k = true -> q k = false) ->
  filter q (fst (Job.removeFirst p s)) = filter q s.
Proof.
  intros H. induction s as [|h rest IH]; simpl; [reflexivity|].
  destruct (p h) eqn:P; simpl.
  - rewrite (H h P). reflexivity.
  - destruct (Job.removeFirst p rest) as [rest' r]. simpl in *.
    rewrite IH. reflexivity.
Qed.

Lemma filter_updateFirst (q p : JobDocument -> bool)
    (f : JobDocument -> JobDocument) (s : Store) :
  (forall k, p k = true -> q k = false /\ q (f k) = false) ->
  filter q (fst (Job.updateFirst p f s)) = filter q s.
Proof.
  intros H. induction s as [|h rest IH]; simpl; [reflexivity|].
  destruct (p h) eqn:P; simpl.
  - destruct (H h P) as [H1 H2]. rewrite H1, H2. reflexivity.
  - destruct (Job.updateFirst p f rest) as [rest' r]. simpl in *.
    rewrite IH. reflexivity.
Qed.

Lemma listed_same_find (s s' : Store) (userId : ObjectId) :
  Job.find userId s' = Job.find userId s ->
  listed s' userId = listed s userId.
Proof.
  intros H. unfold listed, getAllJobs. simpl. rewrite H. reflexivity.
Qed.

(** X6. One user's writes with typed object bodies never show in another
    user's list: after a create by [userId] whose body is one object, after
    a delete by [userId], and after an update by [userId] whose payload is
    a plain object of typed paths that does not hand the job to [other],
    the list route answers [other] exactly as before. (A create with an
    array body can put a job in another user's list.) *)
Theorem writes_leave_other_lists_alone
    (s : Store) (userId other : ObjectId) :
  other <> userId ->
  (forall body envs,
     listed (fst (respond (createJobAny s userId (ObjectBody body) envs)))
       other =
     listed s other)
  /\ (forall jobId,
        listed (fst (respond (deleteJob s userId jobId))) other =
          listed s other)
  /\ (forall jobId newData env,
        Body.createdBy newData <> Some other ->
        listed (fst (respond (updateJob s userId jobId newData env))) other =
          listed s other).
Proof.
  intros Hne.
  assert (Hmatch : forall oid k,
             Job.matches oid userId k = true -> Job.ownedBy other k = false).
  { intros oid k Hm. unfold Job.matches, Job.ownedBy in *.
    apply andb_prop in Hm. destruct Hm as [_ Ho].
    apply N.eqb_eq in Ho. rewrite Ho. apply N.eqb_neq. congruence. }
  split; [|split].
  - intros body envs. rewrite fst_respond. apply listed_same_find.
    set (env := envs O).
    change (createJobAny s userId (ObjectBody body) envs)
      with (createJob s userId body env).
    unfold createJob, Job.create.
    destruct (JobSchema.validateDocument _) as [|e errs]; [|reflexivity].
    destruct (Job.hasId (newId env) s); [reflexivity|]. simpl.
    unfold Job.find. rewrite filter_app. simpl.
    unfold Job.ownedBy at 2. simpl.
    destruct (N.eqb_spec userId other) as [E|E]; [congruence|].
    apply app_nil_r.
  - intros jobId. rewrite fst_respond. apply listed_same_find.
    unfold deleteJob, Job.findOneAndDelete.
    destruct (castObjectId jobId) as [oid|]; [|reflexivity].
    pose proof (filter_removeFirst (Job.ownedBy other)
                  (Job.matches oid userId) s (Hmatch oid)) as Hf.
    destruct (Job.removeFirst _ s) as [s' [deleted|]]; exact Hf.
  - intros jobId newData env Hkeep. rewrite fst_respond.
    apply listed_same_find.
    unfold updateJob, Job.findOneAndUpdate.
    destruct (castObjectId jobId) as [oid|]; [|reflexivity].
    destruct (JobSchema.validateUpdate newData) as [|e errs];
      [|reflexivity].
    assert (Hf : filter (Job.ownedBy other)
                   (fst (Job.updateFirst (Job.matches oid userId)
                           (Job.applyUpdate newData env) s)) =
                 filter (Job.ownedBy other) s).
    { apply filter_updateFirst. intros k Hm.
      split; [apply (Hmatch oid); exact Hm|].
      unfold Job.ownedBy, Job.applyUpdate. simpl.
      destruct (Body.createdBy newData) as [o|].
      - apply N.eqb_neq. congruence.
      - apply (Hmatch oid). exact Hm. }
    destruct (Job.updateFirst _ _ s) as [s' [updated|]]; exact Hf.
Qed.

Lemma writes_leave_other_lists_alone_witness :
  listed (fst (respond (deleteJob Sample.store Sample.userA Sample.jobId)))
    Sample.userB =
  listed Sample.store Sample.userB.
Proof.
  assert (Hne : Sample.userB <> Sample.userA) by discriminate.
  destruct (writes_leave_other_lists_alone
              Sample.store Sample.userA Sample.userB Hne) as (_ & Hdel & _).
  apply Hdel.
Defined.

(** ** What a request never does *)

Lemma updateFirst_none (p : JobDocument -> bool)
    (f : JobDocument -> JobDocument) (s : Store) :
  snd (Job.updateFirst p f s) = None -> fst (Job.updateFirst p f s) = s.
Proof.
  induction s as [|h rest IH]; simpl; [reflexivity|].
  destruct (p h); simpl; [intros H; discriminate H|].
  destruct (Job.updateFirst p f rest) as [rest' r]. simpl in *.
  intros H. rewrite IH by exact H. reflexivity.
Qed.

Lemma removeFirst_none (p : JobDocument -> bool) (s : Store) :
  snd (Job.removeFirst p s) = None -> fst (Job.removeFirst p s) = s.
Proof.
  induction s as [|h rest IH]; simpl; [reflexivity|].
  destruct (p h); simpl; [intros H; discriminate H|].
  destruct (Job.removeFirst p rest) as [rest' r]. simpl in *.
  intros H. rewrite IH by exact H. reflexivity.
Qed.

(** X7. For requests whose body, if any, is one object with typed paths,
    the store changes only when a write is answered 200: the list and
    get-one routes never write, and a create, update or delete that is
    answered with an error (validation, cast of the id, duplicate key, not
    found) leaves every document as it was. (A create with an array body is
    not such a request: it can be answered 400 and store all the same.) *)
Theorem only_successful_writes_change_the_store (s : Store) (r : Request) :
  fst (handle s r) = s
  \/ (isWrite r = true /\ res_status (snd (handle s r)) = 200).
Proof.
  destruct r as [u|u jobId|u body env|u jobId newData env|u jobId];
    unfold handle.
  - left. reflexivity.
  - left. rewrite fst_respond. unfold getJob.
    destruct (Job.findOne jobId u s) as [[job|]|err]; reflexivity.
  - unfold createJob, Job.create.
    destruct (JobSchema.validateDocument _) as [|e errs];
      [|left; reflexivity].
    destruct (Job.hasId (newId env) s); [left; reflexivity|].
    right. split; reflexivity.
  - unfold updateJob, Job.findOneAndUpdate.
    destruct (castObjectId jobId) as [oid|]; [|left; reflexivity].
    destruct (JobSchema.validateUpdate newData) as [|e errs];
      [|left; reflexivity].
    pose proof (updateFirst_none (Job.matches oid u)
                  (Job.applyUpdate newData env) s) as Hnone.
    destruct (Job.updateFirst _ _ s) as [s' [updated|]]; simpl in *.
    + right. split; reflexivity.
    + left. apply Hnone. reflexivity.
  - unfold deleteJob, Job.findOneAndDelete.
    destruct (castObjectId jobId) as [oid|]; [|left; reflexivity].
    pose proof (removeFirst_none (Job.matches oid u) s) as Hnone.
    destruct (Job.removeFirst _ s) as [s' [deleted|]]; simpl in *.
    + right. split; reflexivity.
    + left. apply Hnone. reflexivity.
Qed.

(** ** Updating one's own job *)

Lemma In_replaceById (s : Store) (j : JobDocument)
    (f : JobDocument -> JobDocument) :
  In j s -> In (f j) (replaceById (_id j) f s).
Proof.
  intros Hj. unfold replaceById. apply in_map_iff. exists j.
  rewrite N.eqb_refl. split; [reflexivity|exact Hj].
Qed.

Lemma replaceById_unique (s : Store) (oid : ObjectId)
    (f : JobDocument -> JobDocument) :
  (forall k, _id (f k) = _id k) ->
  UniqueIds s -> UniqueIds (replaceById oid f s).
Proof.
  intros Hf Hu. unfold UniqueIds, replaceById in *.
  rewrite map_map.
  rewrite (map_ext _ _id); [exact Hu|].
  intros k. destruct (N.eqb (_id k) oid); [apply Hf|reflexivity].
Qed.

(** X10. A valid update by the owner sends back the job as it now is
    stored: each of role, company, status and owner is the payload's value
    when the payload sets it and the old value otherwise, the id and the
    creation time are the old ones and [updatedAt] is the current time; and
    a get-one of that id by the job's owner (the new one, if the payload
    named one) answers 200 with that same job. *)
Theorem updated_job_is_retrievable
    (s : Store) (j : JobDocument) (userId : ObjectId) (jobId : string)
    (newData : Body.t) (env : Env) :
  UniqueIds s ->
  In j s ->
  createdBy j = userId ->
  castObjectId jobId = Some (_id j) ->
  setPathsPass newData ->
  exists s' j',
    respond (updateJob s userId jobId newData env) =
      (s', {| res_status := 200; res_body := UpdatedJobJson j' |})
    /\ In j' s'
    /\ role j' = match Body.role newData with
                 | Some v => v | None => role j end
    /\ company j' = match Body.company newData with
                    | Some v => v | None => company j end
    /\ status j' = match Body.status newData with
                   | Some v => v | None => status j end
    /\ createdBy j' = match Body.createdBy newData with
                      | Some o => o | None => userId end
    /\ _id j' = _id j
    /\ createdAt j' = createdAt j
    /\ updatedAt j' = now env
    /\ respond (getJob s' (createdBy j') jobId) =
         (s', {| res_status := 200; res_body := JobJson j' |}).
Proof.
  intros Hu Hj Ho Hcast Hpass.
  assert (Hok : JobSchema.validateUpdate newData = []).
  { apply validateSet_nil. exact Hpass. }
  exists (replaceById (_id j) (Job.applyUpdate newData env) s),
         (Job.applyUpdate newData env j).
  split.
  { apply (updateJob_valid s j userId jobId newData env); assumption. }
  split; [apply In_replaceById; exact Hj|].
  repeat (split; [reflexivity|]).
  split; [simpl; rewrite Ho; reflexivity|].
  repeat (split; [reflexivity|]).
  unfold getJob, Job.findOne. rewrite Hcast.
  change (_id j) with (_id (Job.applyUpdate newData env j)).
  rewrite find_own_document.
  - reflexivity.
  - apply replaceById_unique; [intros k; reflexivity | exact Hu].
  - apply (In_replaceById s j (Job.applyUpdate newData env) Hj).
Qed.

Lemma updated_job_is_retrievable_witness :
  exists s' j',
    respond (updateJob Sample.store Sample.userA Sample.jobId
               Sample.newRole Sample.env) =
      (s', {| res_status := 200; res_body := UpdatedJobJson j' |})
    /\ role j' = "Lead"
    /\ company j' = "Acme"
    /\ updatedAt j' = 2000.
Proof.
  assert (Hu : UniqueIds Sample.store).
  { unfold UniqueIds, Sample.store. simpl.
    constructor; [intros []|constructor]. }
  assert (Hin : In Sample.job Sample.store) by (left; reflexivity).
  assert (Hpass : setPathsPass Sample.newRole).
  { unfold setPathsPass, Sample.newRole. simpl.
    split; [|split; intros v E; discriminate E].
    intros v E. inversion E; subst.
    split; [discriminate | simpl; lia]. }
  destruct (updated_job_is_retrievable
              Sample.store Sample.job Sample.userA Sample.jobId
              Sample.newRole Sample.env Hu Hin eq_refl eq_refl Hpass)
    as (s' & j' & Hrun & _ & Hrole & Hcompany & _ & _ & _ & _ & Hat & _).
  exists s', j'. repeat split; assumption.
Defined.

(** X11. The owner field is writable through update: when the owner's
    valid payload names another user as [createdBy], the job is handed
    over. From then on the former owner's get-one of that id is answered
    NotFound, and the job appears in the new owner's list. *)
Theorem updateJob_can_hand_a_job_over
    (s : Store) (j : JobDocument) (userA userB : ObjectId) (jobId : string)
    (newData : Body.t) (env : Env) :
  UniqueIds s ->
  In j s ->
  createdBy j = userA ->
  castObjectId jobId = Some (_id j) ->
  setPathsPass newData ->
  Body.createdBy newData = Some userB ->
  userB <> userA ->
  exists s' j',
    respond (updateJob s userA jobId newData env) =
      (s', {| res_status := 200; res_body := UpdatedJobJson j' |})
    /\ createdBy j' = userB
    /\ respond (getJob s' userA jobId) = (s', notFoundResponse jobId)
    /\ exists jobs n,
         listed s' userB =
           {| res_status := 200; res_body := JobsJson jobs n |}
         /\ In j' jobs.
Proof.
  intros Hu Hj Ho Hcast Hpass Hto Hne.
  assert (Hok : JobSchema.validateUpdate newData = []).
  { apply validateSet_nil. exact Hpass. }
  set (f := Job.applyUpdate newData env).
  exists (replaceById (_id j) f s), (f j).
  assert (Hin' : In (f j) (replaceById (_id j) f s))
    by (apply In_replaceById; exact Hj).
  assert (Hu' : UniqueIds (replaceById (_id j) f s))
    by (apply replaceById_unique; [intros k; reflexivity | exact Hu]).
  assert (Hnew : createdBy (f j) = userB).
  { unfold f, Job.applyUpdate. simpl. rewrite Hto. reflexivity. }
  split.
  { apply (updateJob_valid s j userA jobId newData env); assumption. }
  split; [exact Hnew|].
  split.
  { apply (getJob_no_match _ userA (_id j)); [exact Hcast|].
    change (_id j) with (_id (f j)).
    apply other_user_matches_nothing; [exact Hu' | exact Hin' | congruence]. }
  eexists. eexists. split; [reflexivity|].
  eapply Permutation_in; [apply Permutation_sym, sort_perm|].
  apply In_find. split; [exact Hin' | exact Hnew].
Qed.

Lemma updateJob_can_hand_a_job_over_witness :
  respond (getJob
             (fst (respond (updateJob Sample.store Sample.userA Sample.jobId
                              (Body.mk None None None (Some Sample.userB))
                              Sample.env)))
             Sample.userA Sample.jobId) =
    (fst (respond (updateJob Sample.store Sample.userA Sample.jobId
                     (Body.mk None None None (Some Sample.userB))
                     Sample.env)),
     notFoundResponse Sample.jobId).
Proof.
  assert (Hu : UniqueIds Sample.store).
  { unfold UniqueIds, Sample.store. simpl.
    constructor; [intros []|constructor]. }
  assert (Hin : In Sample.job Sample.store) by (left; reflexivity).
  assert (Hpass : setPathsPass (Body.mk None None None (Some Sample.userB))).
  { unfold setPathsPass. simpl.
    split; [|split]; intros v E; discriminate E. }
  assert (Hne : Sample.userB <> Sample.userA) by discriminate.
  destruct (updateJob_can_hand_a_job_over
              Sample.store Sample.job Sample.userA Sample.userB Sample.jobId
              (Body.mk None None None (Some Sample.userB)) Sample.env
              Hu Hin eq_refl eq_refl Hpass eq_refl Hne)
    as (s' & j' & Hrun & _ & Hget & _).
  rewrite Hrun. exact Hget.
Defined.

(** ** Invariants of every run *)

Lemma handle_unique (s : Store) (r : Request) :
  UniqueIds s -> UniqueIds (fst (handle s r)).
Proof.
  intros Hu. unfold handle. rewrite fst_respond.
  destruct r as [u|u jobId|u body env|u jobId newData env|u jobId].
  - exact Hu.
  - unfold getJob. destruct (Job.findOne jobId u s) as [[job|]|err]; exact Hu.
  - apply createJob_unique. exact Hu.
  - apply updateJob_unique. exact Hu.
  - apply deleteJob_unique. exact Hu.
Qed.

Lemma serve_unique (rs : list Request) (s : Store) :
  UniqueIds s -> UniqueIds (serve s rs).
Proof.
  revert s. induction rs as [|r rest IH]; intros s Hu; simpl; [exact Hu|].
  apply IH. apply handle_unique. exact Hu.
Qed.

(** X12. Ids stay unique: in every store reached from the empty collection
    by any sequence of requests, with whatever identifiers the driver hands
    to create, no two documents have the same id. *)
Theorem ids_are_unique_in_every_run (rs : list Request) :
  NoDup (map _id (serve [] rs)).
Proof.
  apply (serve_unique rs []). unfold UniqueIds. simpl. constructor.
Qed.

Lemma validJob_spec (j : JobDocument) :
  validJob j = true <->
  role j <> "" /\ (String.length (role j) <= 100)%nat
  /\ company j <> "" /\ (String.length (company j) <= 50)%nat
  /\ (status j = "interview" \/ status j = "pending"
      \/ status j = "declined").
Proof.
  unfold validJob.
  rewrite !andb_true_iff, !negb_true_iff, !String.eqb_neq, !Nat.leb_le,
    isStatus_spec.
  tauto.
Qed.

Lemma applyUpdate_valid (newData : Body.t) (env : Env) (k : JobDocument) :
  setPathsPass newData ->
  validJob k = true ->
  validJob (Job.applyUpdate newData env k) = true.
Proof.
  intros (Hr & Hc & Hs). rewrite !validJob_spec.
  unfold Job.applyUpdate. simpl.
  intros (R1 & R2 & C1 & C2 & S1).
  assert (HR : forall v, Body.role newData = Some v \/
                         (Body.role newData = None /\ v = role k) ->
                         v <> "" /\ (String.length v <= 100)%nat).
  { intros v [E|[_ ->]]; [apply Hr; exact E | split; assumption]. }
  assert (HC : forall v, Body.company newData = Some v \/
                         (Body.company newData = None /\ v = company k) ->
                         v <> "" /\ (String.length v <= 50)%nat).
  { intros v [E|[_ ->]]; [apply Hc; exact E | split; assumption]. }
  destruct (Body.role newData) as [r|];
    [destruct (HR r (or_introl eq_refl))
    |destruct (HR (role k) (or_intror (conj eq_refl eq_refl)))];
    (destruct (Body.company newData) as [c|];
     [destruct (HC c (or_introl eq_refl))
     |destruct (HC (company k) (or_intror (conj eq_refl eq_refl)))]);
    (destruct (Body.status newData) as [st|];
     [specialize (Hs st eq_refl)|]);
    repeat (split; [assumption|]); assumption.
Qed.

Lemma updateFirst_Forall (P : JobDocument -> Prop)
    (p : JobDocument -> bool) (f : JobDocument -> JobDocument) (s : Store) :
  (forall k, P k -> P (f k)) ->
  Forall P s -> Forall P (fst (Job.updateFirst p f s)).
Proof.
  intros Hf. induction 1 as [|h rest Hh Hrest IH]; simpl; [constructor|].
  destruct (p h); simpl.
  - constructor; [apply Hf; exact Hh | exact Hrest].
  - destruct (Job.updateFirst p f rest) as [rest' r]. simpl in *.
    constructor; assumption.
Qed.

Lemma handle_valid (s : Store) (r : Request) :
  Forall (fun j => validJob j = true) s ->
  Forall (fun j => validJob j = true) (fst (handle s r)).
Proof.
  intros Hv. unfold handle. rewrite fst_respond.
  destruct r as [u|u jobId|u body env|u jobId newData env|u jobId].
  - exact Hv.
  - unfold getJob. destruct (Job.findOne jobId u s) as [[job|]|err]; exact Hv.
  - unfold createJob, Job.create.
    destruct (JobSchema.validateDocument _) as [|e errs] eqn:V; [|exact Hv].
    destruct (Job.hasId (newId env) s); [exact Hv|]. simpl.
    apply Forall_app. split; [exact Hv|].
    constructor; [|constructor].
    apply validateDocument_stamped_nil in V.
    destruct V as ([r Hr] & [c Hc] & (Pr & Pc & Ps)).
    apply validJob_spec. simpl. rewrite Hr, Hc.
    destruct (Pr r Hr), (Pc c Hc).
    repeat (split; [assumption|]).
    destruct (Body.status body) as [st|]; [apply Ps; reflexivity|].
    right. left. reflexivity.
  - unfold updateJob, Job.findOneAndUpdate.
    destruct (castObjectId jobId) as [oid|]; [|exact Hv].
    destruct (JobSchema.validateUpdate newData) as [|e errs] eqn:V;
      [|exact Hv].
    apply validateSet_nil in V.
    pose proof (updateFirst_Forall (fun j => validJob j = true)
                  (Job.matches oid u) (Job.applyUpdate newData env) s
                  (fun k => applyUpdate_valid newData env k V) Hv) as H.
    destruct (Job.updateFirst _ _ s) as [s' [updated|]]; exact H.
  - unfold deleteJob, Job.findOneAndDelete.
    destruct (castObjectId jobId) as [oid|]; [|exact Hv].
    pose proof (removeFirst_incl (Job.matches oid u) s) as Hincl.
    destruct (Job.removeFirst _ s) as [s' [deleted|]]; simpl in *;
      apply Forall_forall; intros k Hk;
      apply (proj1 (Forall_forall _ _) Hv); apply Hincl; exact Hk.
Qed.

Lemma serve_valid (rs : list Request) (s : Store) :
  Forall (fun j => validJob j = true) s ->
  Forall (fun j => validJob j = true) (serve s rs).
Proof.
  revert s. induction rs as [|r rest IH]; intros s Hv; simpl; [exact Hv|].
  apply IH. apply handle_valid. exact Hv.
Qed.

(** X13. As long as every create carries one object and every update a
    plain object, with typed values at the schema paths they name (no
    update operators), every stored job satisfies the schema: in every
    store reached from the empty collection by any sequence of such
    requests, each document has a role of 1 to 100 characters, a company of
    1 to 50 characters and a status among interview, pending and declined.
    The update validators look only at the paths a payload sets, and for
    such payloads that is enough. *)
Theorem stored_jobs_satisfy_the_schema (rs : list Request) (j : JobDocument) :
  In j (serve [] rs) ->
  role j <> "" /\ (String.length (role j) <= 100)%nat
  /\ company j <> "" /\ (String.length (company j) <= 50)%nat
  /\ (status j = "interview" \/ status j = "pending"
      \/ status j = "declined").
Proof.
  intros Hin. apply validJob_spec.
  apply (proj1 (Forall_forall _ _)
           (serve_valid rs [] (Forall_nil _)) j Hin).
Qed.

Lemma stored_jobs_satisfy_the_schema_witness :
  exists j,
    In j (serve [] [CreateJob Sample.userA Sample.engineerAtAcme Sample.env;
                    UpdateJob Sample.userA "00000000000000000000004d"
                      Sample.newRole Sample.env])
    /\ role j = "Lead"
    /\ (String.length (role j) <= 100)%nat.
Proof.
  eexists. split; [left; reflexivity|]. split; [reflexivity|].
  eapply (stored_jobs_satisfy_the_schema
            [CreateJob Sample.userA Sample.engineerAtAcme Sample.env;
             UpdateJob Sample.userA "00000000000000000000004d"
               Sample.newRole Sample.env]).
  left. reflexivity.
Defined.

(** * The User schema *)

(** ** The pattern matcher decides the language of the pattern *)

Section RegExpFacts.

Import RegExp.

Lemma string_app_nil_r (s : string) : s ++ "" = s.
Proof. induction s as [|c s IH]; simpl; [reflexivity|]. rewrite IH. reflexivity. Qed.

Lemma string_app_assoc (a b c : string) : (a ++ b) ++ c = a ++ (b ++ c).
Proof. induction a as [|x a IH]; simpl; [reflexivity|]. rewrite IH. reflexivity. Qed.

Lemma string_app_eq_nil (a b : string) : a ++ b = "" -> a = "" /\ b = "".
Proof. destruct a; simpl; intros H; [split; [reflexivity|exact H]|discriminate H]. Qed.

Lemma never_inv (s : string) : ~ Matches Never s.
Proof. intros H; inversion H. Qed.

Lemma empty_inv (s : string) : Matches Empty s -> s = "".
Proof. intros H; inversion H; reflexivity. Qed.

Lemma class_inv (p : ascii -> bool) (s : string) :
  Matches (Class p) s -> exists c, s = String c "" /\ p c = true.
Proof. intros H; inversion H; subst; eauto. Qed.

Lemma seq_inv (r1 r2 : t) (s : string) :
  Matches (Seq r1 r2) s ->
  exists s1 s2, s = s1 ++ s2 /\ Matches r1 s1 /\ Matches r2 s2.
Proof. intros H; inversion H; subst; eauto. Qed.

Lemma alt_inv (r1 r2 : t) (s : string) :
  Matches (Alt r1 r2) s -> Matches r1 s \/ Matches r2 s.
Proof. intros H; inversion H; subst; auto. Qed.

Lemma nullable_spec (r : t) : nullable r = true <-> Matches r "".
Proof.
  induction r as [| |p|r1 IH1 r2 IH2|r1 IH1 r2 IH2|r IH]; simpl.
  - split; [intros H; discriminate H | intros H; destruct (never_inv _ H)].
  - split; [intros _; constructor | reflexivity].
  - split; [intros H; discriminate H|].
    intros H. apply class_inv in H. destruct H as (c & E & _). discriminate E.
  - rewrite andb_true_iff, IH1, IH2. split.
    + intros [H1 H2]. apply (MSeq r1 r2 "" "" H1 H2).
    + intros H. apply seq_inv in H. destruct H as (s1 & s2 & E & H1 & H2).
      symmetry in E. apply string_app_eq_nil in E. destruct E; subst.
      split; assumption.
  - rewrite orb_true_iff, IH1, IH2. split.
    + intros [H|H]; [apply MAltL|apply MAltR]; exact H.
    + apply alt_inv.
  - split; [intros _; constructor | reflexivity].
Qed.

Lemma star_cons_inv (r : t) (s0 : string) :
  Matches (Star r) s0 ->
  forall c s, s0 = String c s ->
  exists s1 s2,
    s = s1 ++ s2 /\ Matches r (String c s1) /\ Matches (Star r) s2.
Proof.
  intros H. remember (Star r) as r' eqn:Er.
  induction H as [|p x Hp|a b s1 s2 H1 _ H2 _|a b s H _|a b s H _|a
                  |a s1 s2 H1 _ H2 IH2]; try discriminate Er.
  - intros c s E. discriminate E.
  - inversion Er; subst a. intros c s E.
    destruct s1 as [|x s1]; simpl in E.
    + apply (IH2 eq_refl c s E).
    + inversion E; subst. exists s1, s2. repeat split; assumption.
Qed.

Lemma seq_cons_inv (r1 r2 : t) (c : ascii) (s : string) :
  Matches (Seq r1 r2) (String c s) <->
  (exists s1 s2,
     s = s1 ++ s2 /\ Matches r1 (String c s1) /\ Matches r2 s2)
  \/ (Matches r1 "" /\ Matches r2 (String c s)).
Proof.
  split.
  - intros H. apply seq_inv in H. destruct H as (s1 & s2 & E & H1 & H2).
    destruct s1 as [|x s1]; simpl in E.
    + right. subst s2. split; assumption.
    + inversion E; subst. left. exists s1, s2. repeat split; assumption.
  - intros [(s1 & s2 & -> & H1 & H2)|[H1 H2]].
    + apply (MSeq r1 r2 (String c s1) s2 H1 H2).
    + apply (MSeq r1 r2 "" (String c s) H1 H2).
Qed.

Lemma deriv_spec (r : t) :
  forall c s, Matches (deriv c r) s <-> Matches r (String c s).
Proof.
  induction r as [| |p|r1 IH1 r2 IH2|r1 IH1 r2 IH2|r IH]; intros c s; simpl.
  - split; intros H; destruct (never_inv _ H).
  - split; intros H; [destruct (never_inv _ H)|].
    apply empty_inv in H. discriminate H.
  - destruct (p c) eqn:P; split; intros H.
    + apply empty_inv in H. subst. constructor. exact P.
    + apply class_inv in H. destruct H as (x & E & _).
      inversion E; subst. constructor.
    + destruct (never_inv _ H).
    + apply class_inv in H. destruct H as (x & E & Hx).
      inversion E; subst. congruence.
  - assert (Hseq : Matches (Seq (deriv c r1) r2) s <->
                   exists s1 s2,
                     s = s1 ++ s2 /\ Matches r1 (String c s1)
                     /\ Matches r2 s2).
    { split.
      - intros H. apply seq_inv in H.
        destruct H as (s1 & s2 & E & H1 & H2).
        exists s1, s2. split; [exact E|].
        split; [apply IH1; exact H1|exact H2].
      - intros (s1 & s2 & -> & H1 & H2).
        constructor; [apply IH1; exact H1|exact H2]. }
    rewrite seq_cons_inv. destruct (nullable r1) eqn:N.
    + split.
      * intros H. apply alt_inv in H. destruct H as [H|H].
        -- left. apply Hseq. exact H.
        -- right. split; [apply nullable_spec; exact N|apply IH2; exact H].
      * intros [H|[_ H]].
        -- apply MAltL. apply Hseq. exact H.
        -- apply MAltR. apply IH2. exact H.
    + rewrite Hseq. split; [intros H; left; exact H|].
      intros [H|[H _]]; [exact H|].
      apply nullable_spec in H. congruence.
  - split; intros H.
    + apply alt_inv in H.
      destruct H as [H|H]; [apply MAltL; apply IH1|apply MAltR; apply IH2];
        exact H.
    + apply alt_inv in H.
      destruct H as [H|H]; [apply MAltL; apply IH1|apply MAltR; apply IH2];
        exact H.
  - split; intros H.
    + apply seq_inv in H. destruct H as (s1 & s2 & -> & H1 & H2).
      apply (MStarCons r (String c s1) s2); [apply IH; exact H1|exact H2].
    + destruct (star_cons_inv r _ H c s eq_refl) as (s1 & s2 & -> & H1 & H2).
      constructor; [apply IH; exact H1|exact H2].
Qed.

Lemma test_spec (s : string) :
  forall r, test r s = true <-> Matches r s.
Proof.
  induction s as [|c s IH]; intros r; simpl.
  - apply nullable_spec.
  - rewrite IH. apply deriv_spec.
Qed.

Lemma In_allAscii (c : ascii) : In c allAscii.
Proof.
  unfold allAscii. rewrite <- (ascii_nat_embedding c).
  apply in_map. apply in_seq. pose proof (nat_ascii_bounded c). lia.
Qed.

Lemma forall_ascii (f : ascii -> bool) :
  forallb f allAscii = true -> forall c, f c = true.
Proof.
  intros H c. apply (proj1 (forallb_forall f allAscii) H). apply In_allAscii.
Qed.

Lemma class_within (p P : ascii -> bool) :
  forallb (fun c => implb (p c) (P c)) allAscii = true ->
  forall c, p c = true -> P c = true.
Proof.
  intros H c Hp. pose proof (forall_ascii _ H c) as Hc. simpl in Hc.
  rewrite Hp in Hc. exact Hc.
Qed.

Lemma allChars_app (p : ascii -> bool) (a b : string) :
  allChars p (a ++ b) = allChars p a && allChars p b.
Proof.
  induction a as [|c a IH]; simpl; [reflexivity|].
  rewrite IH. apply andb_assoc.
Qed.

Lemma hasChar_app (c : ascii) (a b : string) :
  hasChar c (a ++ b) = hasChar c a || hasChar c b.
Proof.
  induction a as [|x a IH]; simpl; [reflexivity|].
  rewrite IH. apply orb_assoc.
Qed.

Lemma classesWithin_sound (P : ascii -> bool) (r : t) (s : string) :
  Matches r s -> classesWithin P r = true -> allChars P s = true.
Proof.
  induction 1 as [|p x Hp|a b s1 s2 H1 IH1 H2 IH2|a b s H IH|a b s H IH|a
                  |a s1 s2 H1 IH1 H2 IH2]; simpl; intros W.
  - reflexivity.
  - rewrite (class_within p P W x Hp). reflexivity.
  - apply andb_prop in W. destruct W as [W1 W2].
    rewrite allChars_app, IH1, IH2 by assumption. reflexivity.
  - apply andb_prop in W. destruct W as [W1 W2]. apply IH. exact W1.
  - apply andb_prop in W. destruct W as [W1 W2]. apply IH. exact W2.
  - reflexivity.
  - rewrite allChars_app, IH1, IH2 by assumption. reflexivity.
Qed.

Lemma mustContain_sound (c : ascii) (r : t) (s : string) :
  Matches r s -> mustContain c r = true -> hasChar c s = true.
Proof.
  induction 1 as [|p x Hp|a b s1 s2 H1 IH1 H2 IH2|a b s H IH|a b s H IH|a
                  |a s1 s2 H1 IH1 H2 IH2]; simpl; intros W;
    try discriminate W.
  - rewrite (class_within p (fun x => Ascii.eqb x c) W x Hp). reflexivity.
  - rewrite hasChar_app. apply orb_true_iff.
    apply orb_prop in W. destruct W as [W|W]; [left; apply IH1|right; apply IH2];
      exact W.
  - apply andb_prop in W. destruct W as [W1 W2]. apply IH. exact W1.
  - apply andb_prop in W. destruct W as [W1 W2]. apply IH. exact W2.
Qed.

Lemma nonEmpty_sound (r : t) (s : string) :
  Matches r s -> nonEmpty r = true -> s <> "".
Proof.
  induction 1 as [|p x Hp|a b s1 s2 H1 IH1 H2 IH2|a b s H IH|a b s H IH|a
                  |a s1 s2 H1 IH1 H2 IH2]; simpl; intros W;
    try discriminate W.
  - discriminate.
  - intros E. apply string_app_eq_nil in E. destruct E as [E1 E2].
    apply orb_prop in W. destruct W as [W|W];
      [apply (IH1 W E1) | apply (IH2 W E2)].
  - apply andb_prop in W. destruct W as [W1 W2]. apply IH. exact W1.
  - apply andb_prop in W. destruct W as [W1 W2]. apply IH. exact W2.
Qed.

Lemma chr_inv (c : ascii) (s : string) : Matches (Chr c) s -> s = String c "".
Proof.
  intros H. apply class_inv in H. destruct H as (x & -> & Hx).
  apply Ascii.eqb_eq in Hx. subst. reflexivity.
Qed.

Lemma star_class (p : ascii -> bool) (s : string) :
  allChars p s = true -> Matches (Star (Class p)) s.
Proof.
  induction s as [|c s IH]; simpl; intros H; [constructor|].
  apply andb_prop in H. destruct H as [Hc Hs].
  apply (MStarCons (Class p) (String c "") s); [constructor; exact Hc|].
  apply IH. exact Hs.
Qed.

Lemma plus_class (p : ascii -> bool) (s : string) :
  s <> "" -> allChars p s = true -> Matches (Plus (Class p)) s.
Proof.
  destruct s as [|c s]; [intros H; contradiction|]. simpl. intros _ H.
  apply andb_prop in H. destruct H as [Hc Hs].
  apply (MSeq (Class p) (Star (Class p)) (String c "") s);
    [constructor; exact Hc | apply star_class; exact Hs].
Qed.

Lemma allChars_weaken (p q : ascii -> bool) (s : string) :
  (forall c, p c = true -> q c = true) ->
  allChars p s = true -> allChars q s = true.
Proof.
  intros Hpq. induction s as [|c s IH]; simpl; [reflexivity|].
  intros H. apply andb_prop in H. destruct H as [Hc Hs].
  rewrite (Hpq c Hc), IH by exact Hs. reflexivity.
Qed.

End RegExpFacts.

(** ** The email pattern *)

Section EmailPattern.

Import RegExp.
Import UserSchema.

(** X14. Every address the email pattern accepts has a non-empty local
    part, an at sign and a domain. The domain is made of letters, digits,
    hyphens, dots and brackets only (so it holds no second at sign and no
    white space) and contains a dot. The local part either starts with a
    double quote or is made only of dots and of characters other than
    white space, the double quote and [<>()[]\,;:@]. *)
Theorem accepted_email_shape (v : string) :
  test emailRegExp v = true ->
  exists l d,
    v = l ++ "@" ++ d
    /\ l <> ""
    /\ (startsWith quoteChar l = true \/ allChars atomOrDot l = true)
    /\ allChars domainChar d = true
    /\ hasChar "." d = true.
Proof.
  intros H. apply test_spec in H. unfold emailRegExp in H.
  apply seq_inv in H. destruct H as (l & rest & -> & Hl & Hrest).
  apply seq_inv in Hrest. destruct Hrest as (a & d & -> & Ha & Hd).
  apply chr_inv in Ha. subst a.
  exists l, d. split; [reflexivity|].
  split; [apply (nonEmpty_sound _ _ Hl); reflexivity|].
  split.
  - unfold localPart in Hl. apply alt_inv in Hl. destruct Hl as [Hl|Hl].
    + right. apply (classesWithin_sound _ _ _ Hl). vm_compute. reflexivity.
    + left. apply seq_inv in Hl. destruct Hl as (q & more & -> & Hq & _).
      apply chr_inv in Hq. subst q. reflexivity.
  - split.
    + apply (classesWithin_sound _ _ _ Hd). vm_compute. reflexivity.
    + apply (mustContain_sound _ _ _ Hd). vm_compute. reflexivity.
Qed.

Lemma accepted_email_shape_witness :
  exists l d,
    "reusedannaemail@gmail.com" = l ++ "@" ++ d
    /\ l <> ""
    /\ allChars domainChar d = true
    /\ hasChar "." d = true.
Proof.
  destruct (accepted_email_shape "reusedannaemail@gmail.com" eq_refl)
    as (l & d & E & Hl & _ & Hd & Hdot).
  exists l, d. repeat split; assumption.
Defined.

(** X15. The email pattern accepts every plain address: a non-empty word
    of letters and digits, an at sign, a non-empty word of letters and
    digits, a dot, and two letters or more. *)
Theorem plain_addresses_are_accepted (l h tld : string) :
  l <> "" -> allChars alnum l = true ->
  h <> "" -> allChars alnum h = true ->
  (2 <= String.length tld)%nat -> allChars isLetter tld = true ->
  test emailRegExp (l ++ "@" ++ h ++ "." ++ tld) = true.
Proof.
  intros Hl1 Hl2 Hh1 Hh2 Ht1 Ht2. apply test_spec.
  unfold emailRegExp. constructor.
  - unfold localPart. apply MAltL.
    rewrite <- (string_app_nil_r l). constructor; [|constructor].
    apply plus_class; [exact Hl1|].
    apply (allChars_weaken alnum); [|exact Hl2].
    apply class_within. vm_compute. reflexivity.
  - apply (MSeq (Chr "@") domainPart "@" (h ++ "." ++ tld)).
    + constructor. reflexivity.
    + unfold domainPart. apply MAltR. unfold hostName.
      change (h ++ "." ++ tld) with (h ++ ("." ++ tld)).
      rewrite <- string_app_assoc. constructor.
      * rewrite <- (string_app_nil_r (h ++ ".")). constructor; [|constructor].
        constructor; [|constructor; reflexivity].
        apply plus_class; [exact Hh1|].
        apply (allChars_weaken alnum); [|exact Hh2].
        apply class_within. vm_compute. reflexivity.
      * destruct tld as [|c1 [|c2 rest]]; simpl in Ht1; try lia.
        simpl in Ht2.
        apply andb_prop in Ht2. destruct Ht2 as [H1 Ht2].
        apply andb_prop in Ht2. destruct Ht2 as [H2 H3].
        apply (MSeq _ _ (String c1 "") (String c2 rest));
          [constructor; exact H1|].
        apply (MSeq _ _ (String c2 "") rest); [constructor; exact H2|].
        apply star_class. exact H3.
Qed.

Lemma plain_addresses_are_accepted_witness :
  test emailRegExp "anna@gmail.com" = true.
Proof.
  apply (plain_addresses_are_accepted "anna" "gmail" "com");
    try reflexivity; try discriminate.
  simpl. lia.
Defined.

(** Addresses the pattern refuses: no dot in the domain, a one-letter last
    label, white space in an unquoted local part, two at signs, an empty
    local part, a four-digit group in an address literal. *)
Example refused_addresses :
  map (test emailRegExp)
    ["anna@localhost"; "anna@gmail.c"; "an na@gmail.com"; "a@b@gmail.com";
     "@gmail.com"; "anna@[10.0.0.1000]"; ""] =
  [false; false; false; false; false; false; false].
Proof. reflexivity. Qed.

End EmailPattern.

(** ** Validation of a registration *)

Section UserValidation.

Import UserSchema.

Lemma validateName_ok (v : string) :
  validateName v = None <->
  (3 <= String.length v)%nat /\ (String.length v <= 50)%nat.
Proof.
  unfold validateName.
  destruct (String.eqb_spec v "") as [E|E].
  - subst v. simpl. split; [intros H; discriminate H | lia].
  - destruct (Nat.ltb_spec (String.length v) 3) as [L|L].
    + split; [intros H; discriminate H | lia].
    + destruct (Nat.ltb_spec 50 (String.length v)) as [M|M].
      * split; [intros H; discriminate H | lia].
      * split; [intros _; lia | reflexivity].
Qed.

Lemma validateEmail_ok (v : string) :
  validateEmail v = None <-> RegExp.test emailRegExp v = true.
Proof.
  unfold validateEmail.
  destruct (String.eqb_spec v "") as [E|E].
  - subst v. split; intros H; discriminate H.
  - destruct (RegExp.test emailRegExp v).
    + split; reflexivity.
    + split; intros H; discriminate H.
Qed.

Lemma validatePassword_ok (v : string) :
  validatePassword v = None <-> (6 <= String.length v)%nat.
Proof.
  unfold validatePassword.
  destruct (String.eqb_spec v "") as [E|E].
  - subst v. simpl. split; [intros H; discriminate H | lia].
  - destruct (Nat.ltb_spec (String.length v) 6) as [L|L].
    + split; [intros H; discriminate H | lia].
    + split; [intros _; lia | reflexivity].
Qed.

Lemma required_path_ok (o : option string) (e : ValidatorError.t) :
  match o with Some _ => None | None => Some e end = None
  <-> exists v, o = Some v.
Proof.
  destruct o as [v|].
  - split; [intros _; exists v; reflexivity | reflexivity].
  - split; [intros H; discriminate H | intros [v H]; discriminate H].
Qed.

(** X16. A registration payload passes the validation of the User schema
    exactly when it holds a name of 3 to 50 characters, an email the
    pattern accepts and a password of at least 6 characters. *)
Theorem user_validation_accepts_exactly (doc : UserBody.t) :
  validateDocument doc = [] <->
  (exists n, UserBody.name doc = Some n
             /\ (3 <= String.length n)%nat /\ (String.length n <= 50)%nat)
  /\ (exists e, UserBody.email doc = Some e
                /\ RegExp.test emailRegExp e = true)
  /\ (exists p, UserBody.password doc = Some p
                /\ (6 <= String.length p)%nat).
Proof.
  unfold validateDocument, missingRequired, validateSet.
  rewrite !app_nil_both, !pathError_nil, !required_path_ok.
  rewrite (set_path_ok validateName _ _ validateName_ok).
  rewrite (set_path_ok validateEmail _ _ validateEmail_ok).
  rewrite (set_path_ok validatePassword _ _ validatePassword_ok).
  split.
  - intros (([p Hp] & [e He] & [n Hn]) & Vn & Ve & Vp).
    split; [exists n; split; [exact Hn | apply Vn; exact Hn]|].
    split; [exists e; split; [exact He | apply Ve; exact He]|].
    exists p. split; [exact Hp | apply Vp; exact Hp].
  - intros ((n & Hn & Vn) & (e & He & Ve) & (p & Hp & Vp)).
    split; [split; [eauto|split; eauto]|].
    split; [intros v E; rewrite Hn in E; inversion E; subst; exact Vn|].
    split; [intros v E; rewrite He in E; inversion E; subst; exact Ve|].
    intros v E. rewrite Hp in E. inversion E; subst. exact Vp.
Qed.

(** The sample of the notes of the error handler: a registration with a
    name only. The password is reported before the email. *)
Example registration_with_a_name_only :
  let err :=
    ValidationError "User validation failed"
      (validateDocument (UserBody.mk (Some "anna") None None)) in
  message err =
    "User validation failed: password: Please provide a password, email: Please provide an email"
  /\ errorHandlerMiddleware err =
       {| res_status := 400;
          res_body :=
            MsgJson "Validation failed for user creation due to the following reasons: Please provide a password, Please provide an email" |}.
Proof. split; reflexivity. Qed.

End UserValidation.

Lemma user_validation_accepts_exactly_witness :
  UserSchema.validateDocument
    (UserBody.mk (Some "anna") (Some "anna@gmail.com") (Some "secret")) = []
  /\ UserSchema.validateDocument
       (UserBody.mk (Some "an") (Some "anna@gmail.com") (Some "secret"))
     <> [].
Proof.
  split.
  - apply (proj2 (user_validation_accepts_exactly
                    (UserBody.mk (Some "anna") (Some "anna@gmail.com")
                       (Some "secret")))).
    split; [exists "anna"; simpl; repeat split; lia|].
    split; [exists "anna@gmail.com"; split; reflexivity|].
    exists "secret". simpl. split; [reflexivity|lia].
  - intros H.
    apply (proj1 (user_validation_accepts_exactly
                    (UserBody.mk (Some "an") (Some "anna@gmail.com")
                       (Some "secret")))) in H.
    destruct H as ((n & Hn & Hlen & _) & _).
    inversion Hn; subst n. simpl in Hlen. lia.
Defined.

(** * The job routes as a whole *)

Lemma createJob_accepts_exactly_valid_payloads_witness :
  exists job,
    respond (createJob Sample.store Sample.userA Sample.engineerAtAcme
               Sample.env) =
      ((Sample.store ++ [job])%list,
       {| res_status := 200; res_body := JobJson job |})
    /\ status job = "pending"
    /\ createdBy job = Sample.userA.
Proof.
  destruct (createJob_accepts_exactly_valid_payloads
              Sample.store Sample.userA Sample.engineerAtAcme Sample.env)
    as [(r & c & Hr & Hc & _ & _ & Hrun) | (_ & msg & Hrun)].
  - eexists. split; [exact Hrun|]. split; reflexivity.
  - exfalso. vm_compute in Hrun. discriminate Hrun.
Defined.

(** * Bodies that are not one typed object *)

(** ** Create on an array body *)

(** On an array body the caller's identity is never read. *)
Lemma createJobArray_ignores_caller (s : Store) (userId other : ObjectId)
    (docs : list Body.t) (envs : nat -> Env) :
  createJobArray s userId docs envs = createJobArray s other docs envs.
Proof. reflexivity. Qed.

(** C2 fails on the code for an array body. User A posts an array holding
    one job whose [createdBy] names user B. The assignment of the handler
    lands on the array, not on its element, so the job is stored, and sent
    back with 200, with B as owner: the client-supplied owner value has
    reached persistence, where the claim (and the handler's own assignment,
    which does stamp an object body) wants the caller. *)
Theorem array_body_keeps_client_owner :
  let envs := fun _ : nat => Sample.env in
  let stored :=
    {| _id := 77%N; role := "Engineer"; company := "Acme";
       status := "pending"; createdBy := Sample.userB;
       createdAt := 2000; updatedAt := 2000 |} in
  Body.createdBy Sample.engineerAtAcme = Some Sample.userB
  /\ Sample.userB <> Sample.userA
  /\ respond (createJobAny Sample.store Sample.userA
                (ArrayBody [Sample.engineerAtAcme]) envs) =
       ((Sample.store ++ [stored])%list,
        {| res_status := 200; res_body := JobArrayJson [stored] |})
  /\ respond (createJobAny Sample.store Sample.userA
                (ObjectBody Sample.engineerAtAcme) envs) =
       ((Sample.store
         ++ [{| _id := 77%N; role := "Engineer"; company := "Acme";
                status := "pending"; createdBy := Sample.userA;
                createdAt := 2000; updatedAt := 2000 |}])%list,
        {| res_status := 200;
           res_body :=
             JobJson {| _id := 77%N; role := "Engineer"; company := "Acme";
                        status := "pending"; createdBy := Sample.userA;
                        createdAt := 2000; updatedAt := 2000 |} |}).
Proof.
  intros envs stored.
  split; [reflexivity|]. split; [discriminate|].
  split; reflexivity.
Qed.

(** An array whose second element lacks every required path: the first
    element is stored all the same, and the answer is the 400 of the
    second. *)
Example array_body_half_stored :
  let envs := fun i : nat => {| now := 2000; newId := N.of_nat (77 + i) |} in
  fst (respond (createJobAny Sample.store Sample.userA
                  (ArrayBody [Sample.engineerAtAcme; Sample.emptyBody])
                  envs)) =
    (Sample.store
     ++ [{| _id := 77%N; role := "Engineer"; company := "Acme";
            status := "pending"; createdBy := Sample.userB;
            createdAt := 2000; updatedAt := 2000 |}])%list
  /\ snd (respond (createJobAny Sample.store Sample.userA
                     (ArrayBody [Sample.engineerAtAcme; Sample.emptyBody])
                     envs)) =
       {| res_status := 400;
          res_body :=
            MsgJson "Validation failed for user creation due to the following reasons: Please provide a user, Please enter a company name, Please provide a role" |}.
Proof. intros envs. split; reflexivity. Qed.

(** ** Update with a payload that is yet to be cast *)







